(** * Syllabus-to-calendar: the extraction pipeline

    A shallow embedding of the text normaliser and scanned-document check of
    [src/lib/pdf-parser.ts] (class [PDFProcessor]) and of the prompt builder,
    response validator and model fallback of the OpenAI client (class
    [SyllabusProcessor]), with the properties the specification states about
    them.

    JavaScript strings are sequences of UTF-16 code units; a code unit is
    modelled by its number. *)

From Stdlib Require Import String Ascii.
From Stdlib Require Import List NArith ZArith QArith Bool Lia Arith DecimalString.
Import ListNotations.

Close Scope Q_scope.
Open Scope nat_scope.

Set Implicit Arguments.
Set Warnings "-register-all".

(* ================================================================= *)
(** ** JavaScript strings *)

Module JS.

Definition char16 := N.
Definition jsstring := list char16.

(** A string literal of the source, as code units (ASCII only). *)
Definition lit (s : string) : jsstring :=
  List.map N_of_ascii (list_ascii_of_string s).

Fixpoint jsstring_eqb (a b : jsstring) : bool :=
  match a, b with
  | [], [] => true
  | x :: a', y :: b' => N.eqb x y && jsstring_eqb a' b'
  | _, _ => false
  end.

(** [Array.prototype.includes] on an array of strings. *)
Definition includes (l : list jsstring) (s : jsstring) : bool :=
  existsb (jsstring_eqb s) l.

(** The regular-expression class [\s], which is also what [trim] strips:
    ECMAScript WhiteSpace (TAB, VT, FF, SP, NBSP, ZWNBSP and the Unicode
    space separators) and LineTerminator (LF, CR, LS, PS). *)
Definition is_space (c : char16) : bool :=
  match c with
  | 9 | 10 | 11 | 12 | 13 | 32 | 160 | 5760
  | 8232 | 8233 | 8239 | 8287 | 12288 | 65279 => true
  | _ => (8192 <=? c) && (c <=? 8202)
  end%N.

(** The class [[.,;:!?]]. *)
Definition is_punct (c : char16) : bool :=
  match c with
  | 46 | 44 | 59 | 58 | 33 | 63 => true
  | _ => false
  end%N.

Definition SP : char16 := 32%N.

(** [String.prototype.trim]: leading, then trailing white space removed. *)
Fixpoint trimStart (s : jsstring) : jsstring :=
  match s with
  | c :: t => if is_space c then trimStart t else s
  | [] => []
  end.

Fixpoint trimEnd (s : jsstring) : jsstring :=
  match s with
  | c :: t =>
      match trimEnd t with
      | [] => if is_space c then [] else [c]
      | r => c :: r
      end
  | [] => []
  end.

Definition trim (s : jsstring) : jsstring := trimEnd (trimStart s).

(** *** [String.prototype.replace] with a global regular expression

    A pattern is given by its matcher at the head of the remaining input:
    the replacement text and the number of code units the match consumes
    (at least one for every pattern used here).  The scan goes left to
    right; where the pattern does not match, one code unit is copied and the
    scan moves on by one; after a match it resumes behind the match. *)
Section Replace.
Variable m : jsstring -> option (jsstring * nat).

Fixpoint replace_from (skip : nat) (s : jsstring) : jsstring :=
  match s with
  | [] => []
  | c :: t =>
      match skip with
      | S k => replace_from k t
      | O =>
          match m s with
          | Some (r, n) => r ++ replace_from (pred n) t
          | None => c :: replace_from 0 t
          end
      end
  end.

Definition replace_all (s : jsstring) : jsstring := replace_from 0 s.
End Replace.

(** The length of the longest run of white space at the head: what the
    greedy [\s+] takes. *)
Fixpoint space_run (s : jsstring) : nat :=
  match s with
  | c :: t => if is_space c then S (space_run t) else 0
  | [] => 0
  end.

(** What a [throw] carries: an [Error] object with its message, or some
    other value (the sources test [error instanceof Error]). *)
Inductive thrown :=
| ErrorObject (message : jsstring)
| NotAnError.

(** [error instanceof Error ? error.message : d] *)
Definition message_or (d : jsstring) (error : thrown) : jsstring :=
  match error with
  | ErrorObject message => message
  | NotAnError => d
  end.

(** The outcome of a call: a value, or a throw. *)
Inductive completion (A : Type) :=
| Return (a : A)
| Throw (e : thrown).
Arguments Return {A} a.
Arguments Throw {A} e.

End JS.

(* ================================================================= *)
(** ** [PDFProcessor] ([src/lib/pdf-parser.ts]) *)

Module PDFProcessor.
Import JS.

Notation "s |> f" := (f s) (at level 45, left associativity, only parsing).

(** *** [cleanText] *)

(** A pattern that is one character class, replaced by a fixed text. *)
Definition re_class (cls : char16 -> bool) (r : jsstring)
  : jsstring -> option (jsstring * nat) :=
  fun s =>
    match s with
    | c :: _ => if cls c then Some (r, 1) else None
    | [] => None
    end.

(** [/\s+/], replaced by a fixed text. *)
Definition re_spaces (r : jsstring) : jsstring -> option (jsstring * nat) :=
  fun s =>
    match space_run s with
    | O => None
    | n => Some (r, n)
    end.

(** [/[\f\r]/] *)
Definition is_ff_cr (c : char16) : bool := (c =? 12)%N || (c =? 13)%N.

(** The bullet glyphs of the source: U+2022, U+00B7, U+2023, U+2043. *)
Definition is_bullet (c : char16) : bool :=
  (c =? 8226)%N || (c =? 183)%N || (c =? 8227)%N || (c =? 8259)%N.

(** The two quote classes of the source each list the straight quote itself
    (U+0022, resp. U+0027), twice. *)
Definition is_dquote (c : char16) : bool := (c =? 34)%N || (c =? 34)%N.
Definition is_squote (c : char16) : bool := (c =? 39)%N || (c =? 39)%N.

(** [/\s+([.,;:!?])/] replaced by [$1].  The greedy [\s+] takes the whole
    run of white space; giving some of it back cannot help, since the
    mark that must follow is not white space. *)
Definition re_spaces_punct : jsstring -> option (jsstring * nat) :=
  fun s =>
    match space_run s with
    | O => None
    | n =>
        match nth_error s n with
        | Some p => if is_punct p then Some ([p], S n) else None
        | None => None
        end
    end.

(** [/([.,;:!?])([^\s])/] replaced by [$1 $2]. *)
Definition re_punct_nonspace : jsstring -> option (jsstring * nat) :=
  fun s =>
    match s with
    | p :: x :: _ =>
        if is_punct p && negb (is_space x) then Some ([p; SP; x], 2)
        else None
    | _ => None
    end.

Definition cleanText (text : jsstring) : jsstring :=
  text
    (* Remove excessive whitespace *)
    |> replace_all (re_spaces [SP])
    (* Remove page breaks and form feeds *)
    |> replace_all (re_class is_ff_cr [SP])
    (* Clean up bullet points and list markers *)
    |> replace_all (re_class is_bullet [45%N])
    (* Normalize quotes *)
    |> replace_all (re_class is_dquote [34%N])
    |> replace_all (re_class is_squote [39%N])
    (* Remove extra spaces around punctuation *)
    |> replace_all re_spaces_punct
    (* Ensure proper spacing after punctuation *)
    |> replace_all re_punct_nonspace
    (* Trim whitespace *)
    |> trim.

(** *** Validation and the scanned-document check *)

Definition Buffer := list Byte.byte.

Record PDFParseResult := {
  text : jsstring;
  numpages : N
}.

(** [buffer.slice(0, 4).toString() === '%PDF']: the first four bytes decode
    to these four ASCII characters exactly when they are these four bytes. *)
Definition validatePDFBuffer (buffer : Buffer) : bool :=
  match firstn 4 buffer with
  | [b0; b1; b2; b3] =>
      Byte.eqb b0 Byte.x25 && Byte.eqb b1 Byte.x50
      && Byte.eqb b2 Byte.x44 && Byte.eqb b3 Byte.x46
  | _ => false
  end.

(** The quotient of two lengths as JavaScript computes it: a finite number,
    or [Infinity] or [NaN] when the divisor is zero.  The quotient is kept
    exact; the double the engine rounds it to compares with 100 the same way
    for every page count below 2^46. *)
Inductive quotient :=
| Finite (q : Q)
| Infinity
| NaN.

Definition divide (a b : N) : quotient :=
  match b with
  | N0 => if (a =? 0)%N then NaN else Infinity
  | Npos p => Finite (Z.of_N a # p)
  end.

(** [x < k]; false on [Infinity] and on [NaN]. *)
Definition less_than (x : quotient) (k : Q) : bool :=
  match x with
  | Finite q => match Qcompare q k with Lt => true | _ => false end
  | Infinity | NaN => false
  end.

Definition InvalidFormat : thrown :=
  ErrorObject (lit "Invalid PDF file format").
Definition UnsupportedScannedDocument : thrown :=
  ErrorObject (lit "Scanned PDFs are not currently supported. Please provide a text-based PDF.").
Definition InsufficientContent : thrown :=
  ErrorObject (lit "PDF appears to contain very little text content").
Definition ParseFailure (cause : thrown) : thrown :=
  ErrorObject (lit "Failed to parse PDF: " ++ message_or (lit "Unknown error") cause).

Section WithPdfParse.
(** The third-party [pdf-parse] library: the decoded document, or a
    throw. *)
Variable pdfParse : Buffer -> completion PDFParseResult.

Definition extractText (buffer : Buffer) : completion PDFParseResult :=
  match pdfParse buffer with
  | Return data => Return {| text := text data; numpages := numpages data |}
  | Throw error => Throw (ParseFailure error)
  end.

Definition isScannedPDF (buffer : Buffer) : bool :=
  match extractText buffer with
  | Return result =>
      let textLength := N.of_nat (List.length (trim (text result))) in
      let avgTextPerPage := divide textLength (numpages result) in
      (* If very little text per page, likely scanned *)
      less_than avgTextPerPage 100%Q
  | Throw _ => true (* Assume scanned if can't extract text *)
  end.

Definition processForAI (buffer : Buffer) : completion jsstring :=
  (* Validate PDF *)
  if negb (validatePDFBuffer buffer) then Throw InvalidFormat
  (* Check if scanned *)
  else if isScannedPDF buffer then Throw UnsupportedScannedDocument
  else
    (* Extract and clean text *)
    match extractText buffer with
    | Throw e => Throw e
    | Return result =>
        let cleanedText := cleanText (text result) in
        if (List.length cleanedText <? 50)%nat then Throw InsufficientContent
        else Return cleanedText
    end.
End WithPdfParse.

End PDFProcessor.

(* ================================================================= *)
(** ** Values of the JavaScript runtime *)

Module Json.
Import JS.

(** What [JSON.parse] returns.  An object is the list of its members in
    the order of the text. *)
Inductive json (number : Type) :=
| JNull
| JBool (b : bool)
| JNum (n : number)
| JStr (s : jsstring)
| JArr (items : list (json number))
| JObj (members : list (jsstring * json number)).
Arguments JNull {number}.
Arguments JBool {number} b.
Arguments JNum {number} n.
Arguments JStr {number} s.
Arguments JArr {number} items.
Arguments JObj {number} members.

(** The argument of [openai.chat.completions.create]. *)
Record ChatRequest := {
  model : jsstring;
  messages : list (jsstring * jsstring);  (* role, content *)
  temperature : Q;
  max_tokens : N
}.

(** The parts of the runtime the repository calls and does not define:
    numbers (IEEE doubles), the [Date] parser, case mapping outside ASCII,
    [JSON.parse], the clock and random source behind the event ids, and the
    model provider. *)
Record Host := {
  number : Type;
  (** [ToBoolean] of a number: false on zero and [NaN] *)
  number_truthy : number -> bool;
  (** [Number.prototype.toString] *)
  number_toString : number -> jsstring;
  (** [Number(s)] for a string [s] *)
  StringToNumber : jsstring -> number;
  (** [Number(b)] for a boolean [b] *)
  number_of_bool : bool -> number;
  (** whether [new Date(s).getTime()] is a number, not [NaN] *)
  Date_isValid : jsstring -> bool;
  (** [s.toLowerCase()] for a string with a code unit outside ASCII *)
  toLowerCase_nonascii : jsstring -> jsstring;
  (** [JSON.parse] *)
  JSON_parse : jsstring -> completion (json number);
  (** the text [generateEventId] builds from [Date.now()] and
      [Math.random()] at its n-th call *)
  event_id : nat -> jsstring;
  (** [openai.chat.completions.create] at the n-th request of the run:
      [response.choices[0]?.message?.content], [None] for [null] or
      [undefined]; or a throw *)
  chat_completions_create : nat -> ChatRequest -> completion (option jsstring)
}.

Section Values.
Variable number : Type.
Abbreviation value := (json number).

(** An expression's value is a JSON value, or [undefined] ([None]). *)

Definition has_own (members : list (jsstring * value)) (k : jsstring) : bool :=
  existsb (fun kv => jsstring_eqb (fst kv) k) members.

(** [v.k] for the property names the sources read ([events], [title],
    [date], [time], ...): no prototype defines any of them, so only the
    own members of an object count; of a repeated key [JSON.parse] keeps
    the last. *)
Definition get (v : option value) (k : jsstring) : option value :=
  match v with
  | Some (JObj members) =>
      match find (fun kv => jsstring_eqb (fst kv) k) (rev members) with
      | Some kv => Some (snd kv)
      | None => None
      end
  | _ => None
  end.

(** [typeof v === 'string'] *)
Definition typeof_string (v : option value) : bool :=
  match v with Some (JStr _) => true | _ => false end.

(** [typeof v === 'object'] *)
Definition typeof_object (v : option value) : bool :=
  match v with
  | Some JNull | Some (JArr _) | Some (JObj _) => true
  | _ => false
  end.

(** The text of a value known to be a string. *)
Definition string_of (v : option value) : jsstring :=
  match v with Some (JStr s) => s | _ => [] end.
End Values.

Definition ascii_lower (c : char16) : char16 :=
  if (65 <=? c)%N && (c <=? 90)%N then (c + 32)%N else c.

Section WithHost.
Variable H : Host.
Abbreviation value := (json (number H)).

(** [ToBoolean] *)
Definition ToBoolean (v : option value) : bool :=
  match v with
  | None | Some JNull => false
  | Some (JBool b) => b
  | Some (JNum n) => number_truthy H n
  | Some (JStr s) => negb (jsstring_eqb s [])
  | Some (JArr _) | Some (JObj _) => true
  end.

Definition TypeError : thrown :=
  ErrorObject (lit "Cannot convert object to primitive value").

(** [String(v)].  An array is joined with commas, [null] items as the empty
    text.  An object prints as [[object Object]], unless it has a member
    named [toString]: then that member, which is never a function, hides
    [Object.prototype.toString], [valueOf] gives no primitive either, and
    the conversion throws a [TypeError]. *)
Fixpoint ToString_json (v : value) : completion jsstring :=
  match v with
  | JNull => Return (lit "null")
  | JBool b => Return (if b then lit "true" else lit "false")
  | JNum n => Return (number_toString H n)
  | JStr s => Return s
  | JArr items =>
      (fix join (l : list value) : completion jsstring :=
         match l with
         | [] => Return []
         | e :: t =>
             match (match e with JNull => Return [] | _ => ToString_json e end) with
             | Throw err => Throw err
             | Return s =>
                 match t with
                 | [] => Return s
                 | _ :: _ =>
                     match join t with
                     | Throw err => Throw err
                     | Return r => Return (s ++ lit "," ++ r)
                     end
                 end
             end
         end) items
  | JObj members =>
      if has_own members (lit "toString") then Throw TypeError
      else Return (lit "[object Object]")
  end.

Definition ToString (v : option value) : completion jsstring :=
  match v with
  | None => Return (lit "undefined")
  | Some j => ToString_json j
  end.

(** [Number(v)]: an array or object goes through the same conversion to a
    primitive as in [String(v)]. *)
Definition ToNumber (v : option value) : completion (number H) :=
  match v with
  | None => Return (StringToNumber H (lit "undefined"))
  | Some JNull => Return (number_of_bool H false)
  | Some (JBool b) => Return (number_of_bool H b)
  | Some (JNum n) => Return n
  | Some (JStr s) => Return (StringToNumber H s)
  | Some j =>
      match ToString_json j with
      | Return s => Return (StringToNumber H s)
      | Throw e => Throw e
      end
  end.

(** [String.prototype.toLowerCase]: on ASCII text the letters A-Z go to
    a-z and nothing else changes. *)
Definition toLowerCase (s : jsstring) : jsstring :=
  if forallb (fun c => (c <? 128)%N) s then List.map ascii_lower s
  else toLowerCase_nonascii H s.

End WithHost.

End Json.

(* ================================================================= *)
(** ** [SyllabusProcessor] (the OpenAI client) *)

Module SyllabusProcessor.
Import JS Json.

(** *** [createExtractionPrompt] *)

(** A literal of the source in which the double quote is written as a
    backquote. *)
Definition lit_q (s : string) : jsstring :=
  List.map (fun c => if (c =? 96)%N then 34%N else c) (lit s).

Definition prompt_head : jsstring := lit_q "
You are an expert at analyzing academic syllabi and extracting important dates and events. 

Analyze the following syllabus text and extract ALL important dates, assignments, exams, and deadlines. Return the results as a JSON object with the following structure:

{
  `courseName`: `Course name if mentioned`,
  `instructor`: `Instructor name if mentioned`, 
  `semester`: `Semester if mentioned (e.g. 'Fall 2024')`,
  `year`: 2024,
  `events`: [
    {
      `title`: `Assignment or event title`,
      `description`: `Detailed description of the assignment/event`,
      `date`: `YYYY-MM-DD format`,
      `time`: `HH:MM format if specific time mentioned, otherwise null`,
      `type`: `assignment|exam|reading|lecture|project|quiz|other`,
      `priority`: `high|medium|low`,
      `location`: `location if mentioned, otherwise null`
    }
  ]
}

Focus on extracting:
- Assignment due dates
- Exam dates and times
- Project deadlines
- Reading assignments with due dates
- Quiz dates
- Important class sessions or lectures
- Office hours (if recurring)
- Review sessions

Guidelines:
1. If no year is specified, assume the current or next academic year
2. For dates like `Week 3 Monday` or `Sept 15`, try to determine the actual date
3. Mark exams and major projects as `high` priority
4. Mark regular assignments as `medium` priority  
5. Mark readings and optional items as `low` priority
6. If time is mentioned (e.g. `due at 11:59 PM`), include it
7. Be conservative - only extract clear, definite dates
8. If a date is ambiguous, include it but note the ambiguity in the description

Syllabus text:
".

Definition prompt_tail : jsstring := lit "

Return only valid JSON, no additional text or explanations.".

Definition createExtractionPrompt (syllabusText : jsstring) : jsstring :=
  prompt_head ++ syllabusText ++ prompt_tail.

(** *** The extracted data ([src/types/syllabus.ts]) *)

Record SyllabusEvent (number : Type) := {
  id : option jsstring;
  title : jsstring;
  description : jsstring;
  date : jsstring;
  time : option jsstring;
  type : jsstring;
  priority : jsstring;
  course : option jsstring;
  location : option jsstring;
  duration : option number
}.

Record ProcessedSyllabus (number : Type) := {
  events : list (SyllabusEvent number);
  courseName : option jsstring;
  instructor : option jsstring;
  semester : option jsstring;
  year : option number
}.

(** *** Effects: the requests sent and the ids drawn so far *)

Record world := {
  requests : list ChatRequest;
  ids_drawn : nat
}.

Definition M (A : Type) := world -> completion A * world.

Definition ret {A} (a : A) : M A := fun w => (Return a, w).

Definition throw {A} (e : thrown) : M A := fun w => (Throw e, w).

Definition bind {A B} (c : M A) (k : A -> M B) : M B :=
  fun w =>
    match c w with
    | (Return a, w') => k a w'
    | (Throw e, w') => (Throw e, w')
    end.

(** [try { body } catch (e) { handler }] *)
Definition try_catch {A} (body : M A) (handler : thrown -> M A) : M A :=
  fun w =>
    match body w with
    | (Return a, w') => (Return a, w')
    | (Throw e, w') => handler e w'
    end.

Definition lift {A} (c : completion A) : M A := fun w => (c, w).

Notation "x <- c ;; k" := (bind c (fun x => k))
  (at level 61, c at next level, right associativity).

Definition system_instruction : jsstring :=
  lit "You are an expert academic assistant specializing in syllabus analysis. Return only valid JSON responses.".

Definition NoResponse : thrown := ErrorObject (lit "No response from OpenAI").
Definition InvalidJSON : thrown :=
  ErrorObject (lit "Invalid JSON response from AI model").
Definition InvalidResult : thrown := ErrorObject (lit "Invalid result format").
Definition ProcessingFailed (cause : thrown) : thrown :=
  ErrorObject (lit "Failed to process syllabus: "
               ++ message_or (lit "Unknown error") cause).
Definition ExtractionFailed : thrown :=
  ErrorObject (lit "AI processing failed. Please try again or check your syllabus format.").

Section WithHost.
Variable H : Host.
Abbreviation value := (json (number H)).
Abbreviation Event := (SyllabusEvent (number H)).
Abbreviation Syllabus := (ProcessedSyllabus (number H)).

(** [/^\d{4}-\d{2}-\d{2}$/.test(dateStr)] *)
Definition is_digit (c : char16) : bool := (48 <=? c)%N && (c <=? 57)%N.

Definition dateRegex_test (dateStr : jsstring) : bool :=
  match dateStr with
  | [y1; y2; y3; y4; h1; m1; m2; h2; d1; d2] =>
      is_digit y1 && is_digit y2 && is_digit y3 && is_digit y4
      && (h1 =? 45)%N && is_digit m1 && is_digit m2
      && (h2 =? 45)%N && is_digit d1 && is_digit d2
  | _ => false
  end.

Definition isValidDateFormat (dateStr : jsstring) : bool :=
  if negb (dateRegex_test dateStr) then false
  else Date_isValid H dateStr.

Definition isValidEvent (event : value) : bool :=
  ToBoolean H (Some event)
  && typeof_string (get (Some event) (lit "title"))
  && (0 <? List.length (trim (string_of (get (Some event) (lit "title")))))
  && typeof_string (get (Some event) (lit "date"))
  && isValidDateFormat (string_of (get (Some event) (lit "date"))).

Definition validateDate (dateStr : jsstring) : completion jsstring :=
  if negb (isValidDateFormat dateStr)
  then Throw (ErrorObject (lit "Invalid date format: " ++ dateStr))
  else Return dateStr.

Definition validTypes : list jsstring :=
  [lit "assignment"; lit "exam"; lit "reading"; lit "lecture";
   lit "project"; lit "quiz"; lit "other"].

Definition validateEventType (type : option value) : completion jsstring :=
  match ToString H type with
  | Throw e => Throw e
  | Return s =>
      let lowerType := toLowerCase H s in
      Return (if includes validTypes lowerType then lowerType else lit "other")
  end.

Definition validPriorities : list jsstring :=
  [lit "high"; lit "medium"; lit "low"].

Definition validatePriority (priority : option value) : completion jsstring :=
  match ToString H priority with
  | Throw e => Throw e
  | Return s =>
      let lowerPriority := toLowerCase H s in
      Return (if includes validPriorities lowerPriority then lowerPriority
              else lit "medium")
  end.

Definition generateEventId : M jsstring :=
  fun w =>
    (Return (event_id H (ids_drawn w)),
     {| requests := requests w; ids_drawn := S (ids_drawn w) |}).

(** [v ? String(v).trim() : undefined] *)
Definition trimmed_if_truthy (v : option value) : M (option jsstring) :=
  if ToBoolean H v then s <- lift (ToString H v) ;; ret (Some (trim s))
  else ret None.

(** [v || ''] *)
Definition or_empty (v : option value) : option value :=
  if ToBoolean H v then v else Some (JStr []).

(** The object pushed for one valid candidate; its properties are
    evaluated in the order written. *)
Definition cleanEvent (event : value) : M Event :=
  let e := Some event in
  id_ <- generateEventId ;;
  title_ <- lift (ToString H (get e (lit "title"))) ;;
  description_ <- lift (ToString H (or_empty (get e (lit "description")))) ;;
  date_ <- lift (validateDate (string_of (get e (lit "date")))) ;;
  time_ <- trimmed_if_truthy (get e (lit "time")) ;;
  type_ <- lift (validateEventType (get e (lit "type"))) ;;
  priority_ <- lift (validatePriority (get e (lit "priority"))) ;;
  location_ <- trimmed_if_truthy (get e (lit "location")) ;;
  ret {| id := Some id_;
         title := trim title_;
         description := trim description_;
         date := date_;
         time := time_;
         type := type_;
         priority := priority_;
         course := None;
         location := location_;
         duration := None |}.

(** The loop [for (const event of result.events)]. *)
Fixpoint cleanEvents (candidates : list value) : M (list Event) :=
  match candidates with
  | [] => ret []
  | event :: rest =>
      if isValidEvent event then
        ev <- cleanEvent event ;;
        evs <- cleanEvents rest ;;
        ret (ev :: evs)
      else cleanEvents rest
  end.

Definition validateAndCleanResult (result : value) : M Syllabus :=
  if negb (ToBoolean H (Some result)) || negb (typeof_object (Some result))
  then throw InvalidResult
  else
    events_ <- match get (Some result) (lit "events") with
               | Some (JArr candidates) => cleanEvents candidates
               | _ => ret []
               end ;;
    courseName_ <- trimmed_if_truthy (get (Some result) (lit "courseName")) ;;
    instructor_ <- trimmed_if_truthy (get (Some result) (lit "instructor")) ;;
    semester_ <- trimmed_if_truthy (get (Some result) (lit "semester")) ;;
    year_ <- (if ToBoolean H (get (Some result) (lit "year"))
              then n <- lift (ToNumber H (get (Some result) (lit "year"))) ;;
                   ret (Some n)
              else ret None) ;;
    ret {| events := events_;
           courseName := courseName_;
           instructor := instructor_;
           semester := semester_;
           year := year_ |}.

(** *** The model calls *)

Definition create (request : ChatRequest) : M (option jsstring) :=
  fun w =>
    (chat_completions_create H (List.length (requests w)) request,
     {| requests := requests w ++ [request]; ids_drawn := ids_drawn w |}).

Definition chat_request (model_ : jsstring) (prompt : jsstring) (limit : N)
  : ChatRequest :=
  {| model := model_;
     messages := [(lit "system", system_instruction); (lit "user", prompt)];
     temperature := (1 # 10)%Q;
     max_tokens := limit |}.

(** [if (!content) throw ...] *)
Definition require_content (content : option jsstring) : M jsstring :=
  match content with
  | Some (c :: s) => ret (c :: s)
  | _ => throw NoResponse
  end.

Definition extractEvents (syllabusText : jsstring) : M Syllabus :=
  try_catch
    (let prompt := createExtractionPrompt syllabusText in
     response <- create (chat_request (lit "gpt-4") prompt 3000) ;;
     content <- require_content response ;;
     (* Parse the JSON response *)
     parsedResult <- try_catch (lift (JSON_parse H content))
                               (fun parseError => throw InvalidJSON) ;;
     (* Validate and clean the result *)
     validateAndCleanResult parsedResult)
    (fun error => throw (ProcessingFailed error)).

(** The inner [try] block of [extractEventsWithFallback]. *)
Definition fallbackAttempt (syllabusText : jsstring) : M Syllabus :=
  let prompt := createExtractionPrompt syllabusText in
  response <- create (chat_request (lit "gpt-3.5-turbo") prompt 2000) ;;
  content <- require_content response ;;
  parsedResult <- lift (JSON_parse H content) ;;
  validateAndCleanResult parsedResult.

Definition extractEventsWithFallback (syllabusText : jsstring) : M Syllabus :=
  try_catch
    (* Try GPT-4 first *)
    (extractEvents syllabusText)
    (fun error =>
       try_catch
         (fallbackAttempt syllabusText)
         (fun fallbackError => throw ExtractionFailed)).

End WithHost.

End SyllabusProcessor.

(* ================================================================= *)
(** * Properties *)

(** ** Strings *)

Module JSFacts.
Import JS.

Lemma jsstring_eqb_spec a b : reflect (a = b) (jsstring_eqb a b).
Proof.
  revert b; induction a as [|x a IH]; intros [|y b]; simpl;
    try (constructor; congruence).
  destruct (N.eqb_spec x y) as [->|Hne]; simpl.
  - destruct (IH b) as [->|Hne]; constructor; congruence.
  - constructor; congruence.
Qed.

Lemma jsstring_eqb_refl a : jsstring_eqb a a = true.
Proof. destruct (jsstring_eqb_spec a a); congruence. Qed.

Lemma jsstring_eqb_eq a b : jsstring_eqb a b = true <-> a = b.
Proof. destruct (jsstring_eqb_spec a b); split; congruence. Qed.

Lemma includes_In l s : includes l s = true <-> In s l.
Proof.
  unfold includes. rewrite existsb_exists. split.
  - intros (x & Hx & E). apply jsstring_eqb_eq in E. now subst.
  - intros H. exists s. split; [assumption | apply jsstring_eqb_refl].
Qed.

Lemma is_space_SP : is_space SP = true.
Proof. reflexivity. Qed.

Lemma is_punct_SP : is_punct SP = false.
Proof. reflexivity. Qed.

Lemma punct_not_space c : is_punct c = true -> is_space c = false.
Proof.
  unfold is_punct. intros H.
  repeat (destruct c as [|c]; try discriminate; try reflexivity);
    repeat (destruct c as [c|c|]; try discriminate; try reflexivity).
Qed.

Lemma trimStart_idem s : trimStart (trimStart s) = trimStart s.
Proof.
  induction s as [|c t IH]; simpl; [reflexivity|].
  destruct (is_space c) eqn:E; [assumption|].
  simpl. now rewrite E.
Qed.

Lemma trimEnd_cons c t :
  trimEnd (c :: t) =
  match trimEnd t with
  | [] => if is_space c then [] else [c]
  | r => c :: r
  end.
Proof. reflexivity. Qed.

Lemma trimEnd_idem s : trimEnd (trimEnd s) = trimEnd s.
Proof.
  induction s as [|c t IH]; [reflexivity|].
  rewrite trimEnd_cons.
  destruct (trimEnd t) as [|d r] eqn:E.
  - destruct (is_space c) eqn:Ec; [reflexivity|].
    simpl. now rewrite Ec.
  - rewrite trimEnd_cons, IH. reflexivity.
Qed.

(** Trimming the end keeps the first character of what remains. *)
Lemma trimEnd_head s c r : trimEnd s = c :: r -> exists t, s = c :: t.
Proof.
  destruct s as [|d t]; [discriminate|].
  rewrite trimEnd_cons.
  destruct (trimEnd t); destruct (is_space d); intros E;
    inversion E; subst; eauto.
Qed.

Lemma trimStart_trimEnd s : trimStart (trimEnd (trimStart s)) = trimEnd (trimStart s).
Proof.
  destruct (trimEnd (trimStart s)) as [|c r] eqn:E; [reflexivity|].
  destruct (trimEnd_head _ E) as [t Ht].
  assert (Hc : is_space c = false).
  { clear E. induction s as [|d s IH]; simpl in Ht; [discriminate|].
    destruct (is_space d) eqn:Ed; [auto|]. inversion Ht; now subst. }
  simpl. now rewrite Hc.
Qed.

Lemma trim_idem s : trim (trim s) = trim s.
Proof.
  unfold trim. rewrite trimStart_trimEnd. apply trimEnd_idem.
Qed.

(** *** The scan of [replace] *)

Section ReplaceFacts.
Variable m : jsstring -> option (jsstring * nat).

Lemma replace_from_skipn k s :
  replace_from m k s = replace_all m (skipn k s).
Proof.
  revert k; induction s as [|c t IH]; intros [|k]; try reflexivity.
  simpl. apply IH.
Qed.

Lemma replace_all_cons c t :
  replace_all m (c :: t) =
  match m (c :: t) with
  | Some (r, n) => r ++ replace_all m (skipn (pred n) t)
  | None => c :: replace_all m t
  end.
Proof.
  unfold replace_all at 1. simpl.
  destruct (m (c :: t)) as [[r n]|]; [|reflexivity].
  now rewrite replace_from_skipn.
Qed.

End ReplaceFacts.

Lemma replace_all_class cls x s :
  replace_all (PDFProcessor.re_class cls [x]) s =
  List.map (fun c => if cls c then x else c) s.
Proof.
  induction s as [|c t IH]; [reflexivity|].
  rewrite replace_all_cons. simpl.
  destruct (cls c); simpl; now rewrite IH.
Qed.

Lemma skipn_space_run s : skipn (space_run s) s = trimStart s.
Proof.
  induction s as [|c t IH]; simpl; [reflexivity|].
  destruct (is_space c); [assumption | reflexivity].
Qed.

Lemma length_trimStart s : List.length (trimStart s) <= List.length s.
Proof.
  induction s as [|c t IH]; simpl; [lia|].
  destruct (is_space c); simpl; lia.
Qed.

End JSFacts.

(** ** The text normaliser

    Each pass of [cleanText] is first given by a plain recursion over the
    text, which is what the later arguments work with. *)

Module Normalizer.
Import JS JSFacts PDFProcessor.

Definition starts_with (cls : char16 -> bool) (s : jsstring) : bool :=
  match s with
  | c :: _ => cls c
  | [] => false
  end.

(** Every run of white space becomes one space. *)
Fixpoint collapse (s : jsstring) : jsstring :=
  match s with
  | [] => []
  | c :: t =>
      if is_space c
      then (if starts_with is_space t then collapse t else SP :: collapse t)
      else c :: collapse t
  end.

(** White space in front of a punctuation mark goes. *)
Fixpoint tighten (s : jsstring) : jsstring :=
  match s with
  | [] => []
  | c :: t =>
      let r := tighten t in
      if is_space c && starts_with is_punct r then r else c :: r
  end.

(** A mark directly followed by a character that is not white space gets
    a space behind it; the scan goes on behind that character. *)
Fixpoint loosen (s : jsstring) : jsstring :=
  match s with
  | [] => []
  | p :: t =>
      match t with
      | x :: u =>
          if is_punct p && negb (is_space x) then p :: SP :: x :: loosen u
          else p :: loosen t
      | [] => [p]
      end
  end.

Lemma strong_list_ind (A : Type) (P : list A -> Prop) :
  (forall s, (forall t, List.length t < List.length s -> P t) -> P s) ->
  forall s, P s.
Proof.
  intros step s.
  assert (G : forall n t, List.length t < n -> P t).
  { induction n as [|n IH]; intros t Ht; [lia|].
    apply step. intros u Hu. apply IH. lia. }
  apply (G (S (List.length s))). lia.
Qed.

Lemma collapse_space c t :
  is_space c = true -> collapse (c :: t) = SP :: collapse (trimStart t).
Proof.
  revert c; induction t as [|d t IH]; intros c Hc.
  - simpl. now rewrite Hc.
  - change (collapse (c :: d :: t))
      with (if is_space c
            then (if is_space d then collapse (d :: t) else SP :: collapse (d :: t))
            else c :: collapse (d :: t)).
    rewrite Hc. simpl trimStart.
    destruct (is_space d) eqn:Ed; [now apply IH | reflexivity].
Qed.

Lemma replace_spaces_collapse s :
  replace_all (re_spaces [SP]) s = collapse s.
Proof.
  induction s as [s IH] using strong_list_ind.
  destruct s as [|c t]; [reflexivity|].
  rewrite replace_all_cons. unfold re_spaces. simpl space_run.
  destruct (is_space c) eqn:Ec.
  - simpl pred. rewrite skipn_space_run, collapse_space by assumption.
    simpl. f_equal. apply IH. simpl.
    pose proof (length_trimStart t). lia.
  - simpl. rewrite Ec. f_equal. apply IH. simpl. lia.
Qed.

Lemma tighten_cons c t :
  tighten (c :: t) =
  if is_space c && starts_with is_punct (tighten t) then tighten t
  else c :: tighten t.
Proof. reflexivity. Qed.

Lemma starts_punct_tighten t :
  starts_with is_punct (tighten t) = starts_with is_punct (trimStart t).
Proof.
  induction t as [|d t IH]; [reflexivity|].
  rewrite tighten_cons. simpl trimStart.
  destruct (is_space d) eqn:Ed; simpl andb.
  - destruct (starts_with is_punct (tighten t)) eqn:E; [congruence|].
    simpl. rewrite <- IH.
    destruct (is_punct d) eqn:Ep; [|reflexivity].
    apply punct_not_space in Ep. congruence.
  - reflexivity.
Qed.

Lemma tighten_run t p u :
  trimStart t = p :: u -> is_punct p = true -> tighten t = p :: tighten u.
Proof.
  intros Ht Hp. induction t as [|d t IH]; [discriminate|].
  rewrite tighten_cons. simpl in Ht.
  destruct (is_space d) eqn:Ed.
  - rewrite (IH Ht). simpl. now rewrite Hp.
  - inversion Ht; subst. reflexivity.
Qed.

Lemma nth_space_run t : nth_error t (space_run t) = hd_error (trimStart t).
Proof.
  induction t as [|d t IH]; [reflexivity|]. simpl.
  destruct (is_space d); [assumption | reflexivity].
Qed.

Lemma re_spaces_punct_cons c t :
  re_spaces_punct (c :: t) =
  if is_space c then
    match hd_error (trimStart t) with
    | Some p => if is_punct p then Some ([p], S (S (space_run t))) else None
    | None => None
    end
  else None.
Proof.
  unfold re_spaces_punct. simpl space_run.
  destruct (is_space c); [|reflexivity].
  change (nth_error (c :: t) (S (space_run t)))
    with (nth_error t (space_run t)).
  now rewrite nth_space_run.
Qed.

Lemma skipn_S_space_run t p u :
  trimStart t = p :: u -> skipn (S (space_run t)) t = u.
Proof.
  induction t as [|d t IH]; [discriminate|]. simpl.
  destruct (is_space d) eqn:Ed.
  - intros E. specialize (IH E). exact IH.
  - intros E. inversion E. reflexivity.
Qed.

Lemma replace_spaces_punct_tighten s :
  replace_all re_spaces_punct s = tighten s.
Proof.
  induction s as [s IH] using strong_list_ind.
  destruct s as [|c t]; [reflexivity|].
  rewrite replace_all_cons, tighten_cons, re_spaces_punct_cons.
  destruct (is_space c) eqn:Ec; simpl andb.
  - rewrite starts_punct_tighten.
    destruct (trimStart t) as [|p u] eqn:Et; cbn [hd_error starts_with].
    + f_equal. apply IH. simpl. lia.
    + destruct (is_punct p) eqn:Ep.
      * rewrite (tighten_run _ Et Ep).
        change (pred (S (S (space_run t)))) with (S (space_run t)).
        rewrite (skipn_S_space_run _ Et).
        simpl. f_equal. apply IH. simpl.
        pose proof (length_trimStart t) as L. rewrite Et in L. simpl in L. lia.
      * f_equal. apply IH. simpl. lia.
  - cbv iota. f_equal. apply IH. simpl. lia.
Qed.

Lemma loosen_cons2 p x u :
  loosen (p :: x :: u) =
  if is_punct p && negb (is_space x) then p :: SP :: x :: loosen u
  else p :: loosen (x :: u).
Proof. reflexivity. Qed.

Lemma replace_punct_nonspace_loosen s :
  replace_all re_punct_nonspace s = loosen s.
Proof.
  induction s as [s IH] using strong_list_ind.
  destruct s as [|p [|x u]]; [reflexivity | reflexivity |].
  rewrite replace_all_cons, loosen_cons2. unfold re_punct_nonspace.
  destruct (is_punct p && negb (is_space x)).
  - simpl. do 3 f_equal. apply IH. simpl. lia.
  - f_equal. apply IH. simpl. lia.
Qed.

(** [cleanText], pass by pass. *)
Definition debullet (c : char16) : char16 := if is_bullet c then 45%N else c.

Lemma quote_class_id s :
  List.map (fun c => if is_squote c then 39%N else c)
    (List.map (fun c => if is_dquote c then 34%N else c) s) = s.
Proof.
  rewrite map_map. rewrite <- (map_id s) at 2. apply map_ext. intros c.
  unfold is_dquote, is_squote.
  destruct (N.eqb_spec c 34) as [->|?]; [reflexivity|]. simpl.
  destruct (N.eqb_spec c 39) as [->|?]; reflexivity.
Qed.

Example cleanText_spacing :
  cleanText (lit "  Essay  due ,in class!Late work:none   ")
  = lit "Essay due, in class! Late work: none".
Proof. reflexivity. Qed.

(** A bullet, a no-break space, a form feed and a carriage return. *)
Example cleanText_glyphs :
  cleanText ([8226; 160] ++ lit "Quiz 1" ++ [12; 13; 8259] ++ lit "Quiz 2")%N
  = lit "- Quiz 1 -Quiz 2".
Proof. reflexivity. Qed.

(** A run of marks is spaced in pairs, from the left. *)
Example cleanText_marks :
  cleanText (lit "Week 3...TBA") = lit "Week 3. .. TBA".
Proof. reflexivity. Qed.

Lemma cleanText_passes s :
  cleanText s =
  trim (loosen (tighten
    (List.map debullet
      (List.map (fun c => if is_ff_cr c then SP else c) (collapse s))))).
Proof.
  unfold cleanText.
  rewrite replace_punct_nonspace_loosen, replace_spaces_punct_tighten.
  rewrite !replace_all_class, quote_class_id, replace_spaces_collapse.
  reflexivity.
Qed.

End Normalizer.

(** *** What a cleaned text looks like, and why cleaning it again changes
    nothing *)

Module NormalizerIdempotence.
Import JS JSFacts PDFProcessor Normalizer.

(** White space is the plain space only, and there is no bullet glyph. *)
Definition plain (c : char16) : bool :=
  (if is_space c then (c =? SP)%N else true) && negb (is_bullet c).

(** No two white-space characters in a row. *)
Fixpoint single_spaced (s : jsstring) : bool :=
  match s with
  | c :: t => negb (is_space c && starts_with is_space t) && single_spaced t
  | [] => true
  end.

(** No white space directly in front of a punctuation mark. *)
Fixpoint tight (s : jsstring) : bool :=
  match s with
  | c :: t => negb (is_space c && starts_with is_punct t) && tight t
  | [] => true
  end.

Ltac split_and H :=
  repeat match type of H with
    | _ && _ = true =>
        let H1 := fresh H in
        apply andb_true_iff in H as [H1 H]; try split_and H1
    end.

Lemma starts_with_collapse s :
  starts_with is_space (collapse s) = starts_with is_space s.
Proof.
  induction s as [|c t IH]; [reflexivity|]. simpl.
  destruct (is_space c) eqn:Ec.
  - destruct (starts_with is_space t) eqn:Et; [|reflexivity].
    now rewrite IH.
  - simpl. exact Ec.
Qed.

Lemma collapse_spaces_SP s :
  forallb (fun c => if is_space c then (c =? SP)%N else true) (collapse s) = true.
Proof.
  induction s as [|c t IH]; [reflexivity|]. simpl.
  destruct (is_space c) eqn:Ec.
  - destruct (starts_with is_space t); [assumption|]. simpl. exact IH.
  - simpl. now rewrite Ec.
Qed.

Lemma collapse_single_spaced s : single_spaced (collapse s) = true.
Proof.
  induction s as [|c t IH]; [reflexivity|]. simpl.
  destruct (is_space c) eqn:Ec.
  - destruct (starts_with is_space t) eqn:Et; [assumption|].
    simpl. now rewrite starts_with_collapse, Et, IH.
  - simpl. now rewrite Ec, IH.
Qed.

Lemma collapse_fixed s :
  forallb plain s = true -> single_spaced s = true -> collapse s = s.
Proof.
  induction s as [|c t IH]; [reflexivity|]. simpl. intros Hp Hs.
  apply andb_true_iff in Hp as [Hc Hp]. apply andb_true_iff in Hs as [Hn Hs].
  rewrite (IH Hp Hs). unfold plain in Hc. apply andb_true_iff in Hc as [Hc _].
  destruct (is_space c) eqn:Ec; [|reflexivity].
  apply N.eqb_eq in Hc. subst c.
  simpl in Hn. apply negb_true_iff in Hn. now rewrite Hn.
Qed.

Lemma ff_cr_fixed s :
  forallb (fun c => if is_space c then (c =? SP)%N else true) s = true ->
  List.map (fun c => if is_ff_cr c then SP else c) s = s.
Proof.
  induction s as [|c t IH]; [reflexivity|]. simpl. intros Hp.
  apply andb_true_iff in Hp as [Hc Hp].
  rewrite IH by assumption. f_equal. revert Hc.
  unfold is_ff_cr.
  destruct (N.eqb_spec c 12) as [->|?]; [discriminate|].
  destruct (N.eqb_spec c 13) as [->|?]; [discriminate|]. reflexivity.
Qed.

Lemma is_space_debullet c : is_space (debullet c) = is_space c.
Proof.
  unfold debullet, is_bullet.
  destruct (N.eqb_spec c 8226) as [->|?]; [reflexivity|].
  destruct (N.eqb_spec c 183) as [->|?]; [reflexivity|].
  destruct (N.eqb_spec c 8227) as [->|?]; [reflexivity|].
  destruct (N.eqb_spec c 8259) as [->|?]; reflexivity.
Qed.

Lemma plain_debullet c :
  (if is_space c then (c =? SP)%N else true) = true -> plain (debullet c) = true.
Proof.
  unfold plain. rewrite is_space_debullet. unfold debullet.
  destruct (is_bullet c) eqn:Eb.
  - unfold is_bullet in Eb.
    repeat (apply orb_true_iff in Eb as [Eb|Eb]);
      apply N.eqb_eq in Eb; subst c; reflexivity.
  - intros ->. now rewrite Eb.
Qed.

Lemma debullet_plain s :
  forallb (fun c => if is_space c then (c =? SP)%N else true) s = true ->
  forallb plain (List.map debullet s) = true.
Proof.
  induction s as [|c t IH]; [reflexivity|]. simpl. intros Hp.
  apply andb_true_iff in Hp as [Hc Hp].
  now rewrite plain_debullet, IH.
Qed.

Lemma debullet_single_spaced s :
  single_spaced s = true -> single_spaced (List.map debullet s) = true.
Proof.
  induction s as [|c t IH]; [reflexivity|]. simpl. intros Hs.
  apply andb_true_iff in Hs as [Hn Hs].
  rewrite IH by assumption. rewrite is_space_debullet.
  destruct t as [|d t]; simpl in *; [now rewrite andb_false_r|].
  now rewrite is_space_debullet, Hn.
Qed.

Lemma debullet_fixed s :
  forallb plain s = true -> List.map debullet s = s.
Proof.
  induction s as [|c t IH]; [reflexivity|]. simpl. intros Hp.
  apply andb_true_iff in Hp as [Hc Hp].
  rewrite IH by assumption. unfold plain in Hc.
  apply andb_true_iff in Hc as [_ Hc]. apply negb_true_iff in Hc.
  unfold debullet. now rewrite Hc.
Qed.


(** The later passes keep a text plain and single-spaced. *)

Lemma starts_space_tighten t :
  starts_with is_space (tighten t) = true -> starts_with is_space t = true.
Proof.
  destruct t as [|d t]; [discriminate|]. rewrite tighten_cons.
  destruct (is_space d) eqn:Ed; [intros _; exact Ed|].
  simpl. congruence.
Qed.

Lemma tighten_plain s : forallb plain s = true -> forallb plain (tighten s) = true.
Proof.
  induction s as [|c t IH]; [reflexivity|]. rewrite tighten_cons. simpl.
  intros Hp. apply andb_true_iff in Hp as [Hc Hp].
  destruct (is_space c && starts_with is_punct (tighten t)); simpl;
    rewrite ?Hc; auto.
Qed.

Lemma tighten_single_spaced s :
  single_spaced s = true -> single_spaced (tighten s) = true.
Proof.
  induction s as [|c t IH]; [reflexivity|]. rewrite tighten_cons. simpl.
  intros Hs. apply andb_true_iff in Hs as [Hn Hs].
  destruct (is_space c && starts_with is_punct (tighten t)); [auto|].
  simpl. rewrite (IH Hs), andb_true_r.
  destruct (is_space c) eqn:Ec; [|reflexivity]. simpl in *.
  destruct (starts_with is_space (tighten t)) eqn:E; [|reflexivity].
  apply starts_space_tighten in E. now rewrite E in Hn.
Qed.

Lemma starts_with_loosen cls t : starts_with cls (loosen t) = starts_with cls t.
Proof.
  destruct t as [|p [|x u]]; try reflexivity.
  rewrite loosen_cons2. now destruct (is_punct p && negb (is_space x)).
Qed.

Lemma loosen_plain s : forallb plain s = true -> forallb plain (loosen s) = true.
Proof.
  induction s as [s IH] using strong_list_ind.
  destruct s as [|p [|x u]]; [reflexivity | auto |].
  rewrite loosen_cons2. intros Hp.
  simpl in Hp. apply andb_true_iff in Hp as [Hc Hp].
  pose proof Hp as Hp'. apply andb_true_iff in Hp' as [Hx Hu].
  destruct (is_punct p && negb (is_space x)).
  - cbn [forallb]. rewrite Hc, Hx. change (plain SP) with true. cbn [andb].
    apply IH; [simpl; lia | exact Hu].
  - cbn [forallb]. rewrite Hc. cbn [andb].
    apply IH; [simpl; lia | exact Hp].
Qed.

Lemma loosen_single_spaced s :
  single_spaced s = true -> single_spaced (loosen s) = true.
Proof.
  induction s as [s IH] using strong_list_ind.
  destruct s as [|p [|x u]]; [reflexivity | auto |].
  rewrite loosen_cons2. intros Hs.
  change (single_spaced (p :: x :: u))
    with (negb (is_space p && is_space x) && single_spaced (x :: u)) in Hs.
  apply andb_true_iff in Hs as [Hn Hs].
  destruct (is_punct p && negb (is_space x)) eqn:E.
  - apply andb_true_iff in E as [Ep Ex]. apply negb_true_iff in Ex.
    pose proof (punct_not_space _ Ep) as Ep'.
    cbn [single_spaced starts_with]. rewrite Ep', Ex, is_space_SP.
    cbn [andb negb].
    cbn [single_spaced] in Hs. rewrite Ex in Hs. cbn [andb negb] in Hs.
    apply IH; [simpl; lia | exact Hs].
  - cbn [single_spaced]. rewrite starts_with_loosen.
    cbn [starts_with]. rewrite Hn. cbn [andb].
    apply IH; [simpl; lia | exact Hs].
Qed.

Lemma trimStart_plain s : forallb plain s = true -> forallb plain (trimStart s) = true.
Proof.
  induction s as [|c t IH]; [reflexivity|]. intros Hp. cbn [trimStart].
  destruct (is_space c); [|exact Hp].
  simpl in Hp. apply andb_true_iff in Hp as [_ Hp]. auto.
Qed.

Lemma trimStart_single_spaced s :
  single_spaced s = true -> single_spaced (trimStart s) = true.
Proof.
  induction s as [|c t IH]; [reflexivity|]. intros Hs. cbn [trimStart].
  destruct (is_space c); [|exact Hs].
  simpl in Hs. apply andb_true_iff in Hs as [_ Hs]. auto.
Qed.

Lemma trimEnd_plain s : forallb plain s = true -> forallb plain (trimEnd s) = true.
Proof.
  induction s as [|c t IH]; [reflexivity|]. rewrite trimEnd_cons. simpl.
  intros Hp. apply andb_true_iff in Hp as [Hc Hp]. specialize (IH Hp).
  destruct (trimEnd t) as [|d r].
  - destruct (is_space c); simpl; [reflexivity | now rewrite Hc].
  - cbn [forallb] in *. now rewrite Hc.
Qed.

Lemma starts_space_trimEnd t :
  starts_with is_space (trimEnd t) = true -> starts_with is_space t = true.
Proof.
  destruct (trimEnd t) as [|d r] eqn:E; [discriminate|].
  destruct (trimEnd_head _ E) as [u ->]. auto.
Qed.

Lemma trimEnd_single_spaced s :
  single_spaced s = true -> single_spaced (trimEnd s) = true.
Proof.
  induction s as [|c t IH]; [reflexivity|]. rewrite trimEnd_cons. simpl.
  intros Hs. apply andb_true_iff in Hs as [Hn Hs]. specialize (IH Hs).
  destruct (trimEnd t) as [|d r] eqn:E.
  - destruct (is_space c); simpl; [reflexivity | now rewrite andb_false_r].
  - change (single_spaced (c :: d :: r))
      with (negb (is_space c && starts_with is_space (d :: r))
            && single_spaced (d :: r)).
    rewrite IH, andb_true_r.
    destruct (is_space c) eqn:Ec; [|reflexivity]. simpl in Hn |- *.
    destruct (is_space d) eqn:Ed; [|reflexivity].
    rewrite <- E in *.
    assert (K : starts_with is_space (trimEnd t) = true) by (rewrite E; exact Ed).
    apply starts_space_trimEnd in K. now rewrite K in Hn.
Qed.

(** A text that is plain and single-spaced passes the first five
    replacements of [cleanText] unchanged. *)
Lemma early_passes_fixed s :
  forallb plain s = true -> single_spaced s = true ->
  List.map debullet
    (List.map (fun c => if is_ff_cr c then SP else c) (collapse s)) = s.
Proof.
  intros Hp Hs. rewrite (collapse_fixed _ Hp Hs).
  rewrite ff_cr_fixed.
  - now apply debullet_fixed.
  - clear Hs. induction s as [|c t IH]; [reflexivity|]. simpl in *.
    apply andb_true_iff in Hp as [Hc Hp]. unfold plain in Hc.
    apply andb_true_iff in Hc as [Hc _]. now rewrite Hc, IH.
Qed.


(** After [tighten] no white space is left in front of a mark. *)
Lemma tighten_tight s : tight (tighten s) = true.
Proof.
  induction s as [|c t IH]; [reflexivity|]. rewrite tighten_cons.
  destruct (is_space c && starts_with is_punct (tighten t)) eqn:E; [exact IH|].
  cbn [tight]. now rewrite E, IH.
Qed.

Lemma tight_tail c t : tight (c :: t) = true -> tight t = true.
Proof. simpl. intros Ht. now apply andb_true_iff in Ht as [_ Ht]. Qed.

Definition nonspace (c : char16) : bool := negb (is_space c).

Lemma loosen_cons p r :
  loosen (p :: r) =
  if is_punct p && starts_with nonspace r
  then match r with
       | x :: u => p :: SP :: x :: loosen u
       | [] => [p]
       end
  else p :: loosen r.
Proof.
  destruct r as [|x u]; [now rewrite andb_false_r|]. apply loosen_cons2.
Qed.

Lemma loosen_keep p r :
  is_punct p && starts_with nonspace r = false -> loosen (p :: r) = p :: loosen r.
Proof. intros E. now rewrite loosen_cons, E. Qed.

Lemma loosen_space c r : is_space c = true -> loosen (c :: r) = c :: loosen r.
Proof.
  intros Ec. apply loosen_keep.
  destruct (is_punct c) eqn:Ep; [|reflexivity].
  apply punct_not_space in Ep. congruence.
Qed.

Lemma trimStart_tighten s : trimStart (tighten s) = tighten (trimStart s).
Proof.
  induction s as [|c t IH]; [reflexivity|]. rewrite tighten_cons.
  cbn [trimStart].
  destruct (is_space c) eqn:Ec; cbn [andb].
  - destruct (starts_with is_punct (tighten t)); [exact IH|].
    cbn [trimStart]. now rewrite Ec.
  - cbn [trimStart]. rewrite Ec. now rewrite tighten_cons, Ec.
Qed.

Lemma trimStart_loosen s : trimStart (loosen s) = loosen (trimStart s).
Proof.
  induction s as [|c t IH]; [reflexivity|]. cbn [trimStart].
  destruct (is_space c) eqn:Ec.
  - rewrite loosen_space by assumption. cbn [trimStart]. now rewrite Ec.
  - rewrite loosen_cons.
    destruct (is_punct c && starts_with nonspace t);
      [destruct t|]; cbn [trimStart]; now rewrite Ec.
Qed.

Lemma tight_starts_punct t :
  tight t = true ->
  starts_with is_punct (tighten (loosen t)) = starts_with is_punct t.
Proof.
  intros Ht.
  rewrite starts_punct_tighten, trimStart_loosen, starts_with_loosen.
  induction t as [|c t IH]; [reflexivity|]. cbn [trimStart].
  destruct (is_space c) eqn:Ec; [|reflexivity].
  cbn [tight] in Ht. rewrite Ec in Ht. cbn [andb] in Ht.
  apply andb_true_iff in Ht as [Hn Ht]. apply negb_true_iff in Hn.
  rewrite (IH Ht), Hn. cbn [starts_with].
  destruct (is_punct c) eqn:Ep; [|reflexivity].
  apply punct_not_space in Ep. congruence.
Qed.

(** On a tight text, the two spacing passes run over their own result give
    that result again. *)
Lemma loosen_tighten_loosen s :
  tight s = true -> loosen (tighten (loosen s)) = loosen s.
Proof.
  induction s as [s IH] using strong_list_ind.
  destruct s as [|p [|x u]];
    [reflexivity | intros _; cbn; now rewrite andb_false_r |].
  intros Ht. pose proof (tight_tail _ _ Ht) as Ht1.
  pose proof (tight_tail _ _ Ht1) as Ht2.
  rewrite loosen_cons2.
  destruct (is_punct p && negb (is_space x)) eqn:E.
  - apply andb_true_iff in E as [Ep Ex]. apply negb_true_iff in Ex.
    pose proof (punct_not_space _ Ep) as Ep'.
    rewrite (tighten_cons p), Ep'. cbn [andb].
    rewrite (tighten_cons SP), is_space_SP. cbn [andb].
    rewrite (tighten_cons x), Ex. cbn [andb starts_with].
    destruct (is_punct x) eqn:Epx.
    + rewrite loosen_cons2, Ep, Ex. cbn [andb negb].
      do 3 f_equal. apply IH; [simpl; lia | exact Ht2].
    + rewrite (loosen_keep p) by (cbn; now rewrite andb_false_r).
      rewrite (loosen_space SP) by reflexivity.
      rewrite (loosen_keep x) by (now rewrite Epx).
      do 3 f_equal. apply IH; [simpl; lia | exact Ht2].
  - rewrite (tighten_cons p).
    assert (K : is_space p && starts_with is_punct (tighten (loosen (x :: u))) = false).
    { rewrite (tight_starts_punct _ Ht1).
      cbn [tight] in Ht. apply andb_true_iff in Ht as [Hn _].
      now apply negb_true_iff in Hn. }
    rewrite K.
    rewrite loosen_keep; [f_equal; apply IH; [simpl; lia | exact Ht1]|].
    destruct (is_punct p) eqn:Ep; [|reflexivity]. cbn [andb] in E |- *.
    apply negb_false_iff in E.
    rewrite (loosen_space x u E), tighten_cons, E. cbn [andb].
    rewrite (tight_starts_punct _ Ht2).
    cbn [tight] in Ht1. rewrite E in Ht1. cbn [andb] in Ht1.
    apply andb_true_iff in Ht1 as [Hn _]. apply negb_true_iff in Hn.
    rewrite Hn. cbn [starts_with]. unfold nonspace. now rewrite E.
Qed.


(** Trimming the end commutes with the two spacing passes. *)

Lemma trimEnd_keep c t : trimEnd t <> [] -> trimEnd (c :: t) = c :: trimEnd t.
Proof. rewrite trimEnd_cons. now destruct (trimEnd t). Qed.

Lemma trimEnd_nonspace c t : is_space c = false -> trimEnd (c :: t) = c :: trimEnd t.
Proof. intros Ec. rewrite trimEnd_cons, Ec. now destruct (trimEnd t). Qed.

Lemma starts_with_trimEnd cls t :
  trimEnd t <> [] -> starts_with cls (trimEnd t) = starts_with cls t.
Proof.
  destruct (trimEnd t) as [|d r] eqn:E; [congruence|]. intros _.
  now destruct (trimEnd_head _ E) as [u ->].
Qed.

Lemma tighten_nonempty c t : tighten (c :: t) <> [].
Proof.
  rewrite tighten_cons.
  destruct (is_space c && starts_with is_punct (tighten t)) eqn:E;
    [|discriminate].
  apply andb_true_iff in E as [_ E]. now destruct (tighten t).
Qed.

Lemma loosen_nonempty c t : loosen (c :: t) <> [].
Proof.
  rewrite loosen_cons.
  destruct (is_punct c && starts_with nonspace t); [destruct t|]; discriminate.
Qed.

Lemma trimEnd_tighten s : trimEnd (tighten s) = tighten (trimEnd s).
Proof.
  induction s as [|c t IH]; [reflexivity|].
  rewrite tighten_cons, (trimEnd_cons c t).
  destruct (trimEnd t) as [|d r] eqn:E.
  - cbn in IH.
    destruct (is_space c) eqn:Ec; cbn [andb].
    + destruct (starts_with is_punct (tighten t)); [exact IH|].
      now rewrite trimEnd_cons, IH, Ec.
    + rewrite trimEnd_cons, IH, Ec. cbn. now rewrite Ec.
  - assert (Hne : trimEnd (tighten t) <> [])
      by (rewrite IH; apply tighten_nonempty).
    rewrite tighten_cons, <- IH, (starts_with_trimEnd _ _ Hne).
    destruct (is_space c && starts_with is_punct (tighten t)); [reflexivity|].
    now apply trimEnd_keep.
Qed.

Lemma trimEnd_loosen s : trimEnd (loosen s) = loosen (trimEnd s).
Proof.
  induction s as [s IH] using strong_list_ind.
  destruct s as [|p [|x u]]; [reflexivity | |].
  - cbn. now destruct (is_space p).
  - rewrite loosen_cons2.
    destruct (is_punct p && negb (is_space x)) eqn:E.
    + apply andb_true_iff in E as [Ep Ex]. apply negb_true_iff in Ex.
      assert (Hx : forall r, trimEnd (x :: r) <> [])
        by (intros r; rewrite trimEnd_nonspace by assumption; discriminate).
      rewrite (trimEnd_keep p _ (Hx u)), (trimEnd_nonspace _ _ Ex).
      rewrite loosen_cons2, Ep, Ex. cbn [andb negb].
      rewrite (trimEnd_keep p); [rewrite (trimEnd_keep SP)|].
      * rewrite (trimEnd_nonspace _ _ Ex). do 3 f_equal.
        apply IH. simpl. lia.
      * apply Hx.
      * rewrite (trimEnd_keep SP) by apply Hx. discriminate.
    + rewrite (trimEnd_cons p (loosen (x :: u))), (trimEnd_cons p (x :: u)).
      rewrite (IH (x :: u)) by (simpl; lia).
      destruct (trimEnd (x :: u)) as [|d r] eqn:Et.
      * cbn. now destruct (is_space p).
      * destruct (trimEnd_head _ Et) as [u' Hu']. inversion Hu'; subst d.
        destruct (loosen (x :: r)) as [|e r'] eqn:El;
          [now apply loosen_nonempty in El|].
        rewrite <- El. now rewrite loosen_cons2, E.
Qed.

Lemma trim_tighten s : trim (tighten s) = tighten (trim s).
Proof. unfold trim. now rewrite trimStart_tighten, trimEnd_tighten. Qed.

Lemma trim_loosen s : trim (loosen s) = loosen (trim s).
Proof. unfold trim. now rewrite trimStart_loosen, trimEnd_loosen. Qed.

Lemma cleanText_plain s :
  forallb plain (cleanText s) = true /\ single_spaced (cleanText s) = true.
Proof.
  rewrite cleanText_passes. rewrite (ff_cr_fixed _ (collapse_spaces_SP s)).
  unfold trim. split.
  - apply trimEnd_plain, trimStart_plain, loosen_plain, tighten_plain.
    apply debullet_plain, collapse_spaces_SP.
  - apply trimEnd_single_spaced, trimStart_single_spaced.
    apply loosen_single_spaced, tighten_single_spaced.
    apply debullet_single_spaced, collapse_single_spaced.
Qed.

(** *** The claim *)

(** C3. The text normaliser is idempotent: cleaning a cleaned text gives
    the same text, for every input string. *)
Theorem cleanText_idempotent (s : jsstring) :
  cleanText (cleanText s) = cleanText s.
Proof.
  destruct (cleanText_plain s) as [Hp Hs].
  rewrite (cleanText_passes (cleanText s)).
  rewrite (early_passes_fixed _ Hp Hs).
  rewrite cleanText_passes.
  set (u := List.map debullet _).
  rewrite <- trim_tighten, <- trim_loosen.
  rewrite (loosen_tighten_loosen _ (tighten_tight u)).
  apply trim_idem.
Qed.

End NormalizerIdempotence.

(** ** The scanned-document check *)

Module ScannedCheck.
Import JS PDFProcessor.

(** The bytes of [%PDF]. *)
Definition pdf_signature : Buffer := [Byte.x25; Byte.x50; Byte.x44; Byte.x46].

Lemma validatePDFBuffer_signature rest :
  validatePDFBuffer (pdf_signature ++ rest) = true.
Proof. reflexivity. Qed.

Lemma less_than_Finite q k : less_than (Finite q) k = true <-> (q < k)%Q.
Proof.
  unfold less_than. rewrite Qlt_alt.
  destruct (q ?= k)%Q; split; congruence.
Qed.

Lemma scanned_message_distinct :
  UnsupportedScannedDocument <> InvalidFormat
  /\ UnsupportedScannedDocument <> InsufficientContent
  /\ forall cause, UnsupportedScannedDocument <> ParseFailure cause.
Proof. repeat split; intros; discriminate. Qed.

Section WithPdfParse.
Variable pdfParse : Buffer -> completion PDFParseResult.

Lemma isScannedPDF_extracted buffer result :
  pdfParse buffer = Return result ->
  isScannedPDF pdfParse buffer =
  less_than (divide (N.of_nat (List.length (trim (text result))))
                    (numpages result)) 100%Q.
Proof. unfold isScannedPDF, extractText. now intros ->. Qed.

Lemma processForAI_scanned buffer :
  validatePDFBuffer buffer = true ->
  (processForAI pdfParse buffer = Throw UnsupportedScannedDocument
   <-> isScannedPDF pdfParse buffer = true).
Proof.
  intros Hv. unfold processForAI. rewrite Hv. cbn [negb].
  destruct (isScannedPDF pdfParse buffer) eqn:Es; [tauto|].
  split; [|discriminate]. unfold extractText.
  destruct (pdfParse buffer) as [data|e].
  - destruct (_ <? 50); discriminate.
  - discriminate.
Qed.

End WithPdfParse.

(** C7. For a document with the signature whose text extraction succeeds,
    [processForAI] fails with the scanned-document error exactly when the
    document has pages and the average length of trimmed text per page is
    strictly below 100; with an average of at least 100 the check never
    triggers. *)
Theorem scanned_exactly_below_100
  (pdfParse : Buffer -> completion PDFParseResult)
  (buffer : Buffer) (result : PDFParseResult) :
  validatePDFBuffer buffer = true ->
  pdfParse buffer = Return result ->
  let textLength := Z.of_nat (List.length (trim (text result))) in
  (processForAI pdfParse buffer = Throw UnsupportedScannedDocument
   <-> exists pages, numpages result = Npos pages
                     /\ (textLength # pages < 100)%Q)
  /\ (forall pages, numpages result = Npos pages ->
        (100 <= textLength # pages)%Q ->
        processForAI pdfParse buffer <> Throw UnsupportedScannedDocument).
Proof.
  intros Hv Hr textLength.
  assert (K : processForAI pdfParse buffer = Throw UnsupportedScannedDocument
              <-> exists pages, numpages result = Npos pages
                                /\ (textLength # pages < 100)%Q).
  { rewrite (processForAI_scanned pdfParse _ Hv).
    rewrite (isScannedPDF_extracted pdfParse _ Hr).
    unfold divide. subst textLength. rewrite <- nat_N_Z.
    destruct (numpages result) as [|pages].
    - split.
      + destruct (_ =? 0)%N; discriminate.
      + intros (pages & E & _). discriminate.
    - rewrite less_than_Finite. split.
      + intros L. now exists pages.
      + intros (pages' & E & L). now inversion E; subst. }
  split; [exact K|].
  intros pages Hn Hge Hs. apply K in Hs as (pages' & E & L).
  rewrite Hn in E. inversion E; subst pages'.
  now apply Qle_not_lt in Hge.
Qed.

(** A one-page document with five characters of text. *)
Definition sparse_document : PDFParseResult :=
  {| text := lit "hello"; numpages := 1 |}.

Lemma scanned_exactly_below_100_witness :
  validatePDFBuffer pdf_signature = true
  /\ processForAI (fun _ => Return sparse_document) pdf_signature
     = Throw UnsupportedScannedDocument.
Proof.
  split; [reflexivity|].
  apply (proj1 (scanned_exactly_below_100 (fun _ => Return sparse_document)
                  pdf_signature eq_refl eq_refl)).
  exists 1%positive. split; reflexivity.
Defined.

(** C10. A buffer that begins with the signature and whose text extraction
    throws is rejected as a scanned document, not with the parse failure. *)
Theorem extraction_failure_reported_as_scanned
  (pdfParse : Buffer -> completion PDFParseResult)
  (rest : Buffer) (error : thrown) :
  pdfParse (pdf_signature ++ rest) = Throw error ->
  extractText pdfParse (pdf_signature ++ rest) = Throw (ParseFailure error)
  /\ processForAI pdfParse (pdf_signature ++ rest)
     = Throw UnsupportedScannedDocument
  /\ UnsupportedScannedDocument <> ParseFailure error.
Proof.
  intros He. split; [|split].
  - unfold extractText. now rewrite He.
  - apply processForAI_scanned; [reflexivity|].
    unfold isScannedPDF, extractText. now rewrite He.
  - apply scanned_message_distinct.
Qed.

Lemma extraction_failure_reported_as_scanned_witness :
  processForAI (fun _ => Throw NotAnError) (pdf_signature ++ [])
  = Throw UnsupportedScannedDocument.
Proof.
  apply (extraction_failure_reported_as_scanned
           (fun _ => Throw NotAnError) [] eq_refl).
Defined.

End ScannedCheck.

(** ** The response validator *)

Module Validator.
Import JS JSFacts Json SyllabusProcessor.

(** *** A host for the examples

    Numbers are the integers, printed in decimal; a date of the accepted
    shape is valid when its month is 1 to 12 and its day 1 to 31;
    [JSON.parse] knows three texts; the model provider is given. *)
Definition unlit (s : jsstring) : string :=
  string_of_list_ascii (List.map ascii_of_N s).

Definition two_digits (a b : char16) : N := (10 * (a - 48) + (b - 48))%N.

Definition sample_Date_isValid (s : jsstring) : bool :=
  match s with
  | [_; _; _; _; _; m1; m2; _; d1; d2] =>
      (1 <=? two_digits m1 m2)%N && (two_digits m1 m2 <=? 12)%N
      && (1 <=? two_digits d1 d2)%N && (two_digits d1 d2 <=? 31)%N
  | _ => false
  end.

Definition sample_JSON_parse (s : jsstring) : completion (json Z) :=
  if jsstring_eqb s (lit "{}") then Return (JObj [])
  else if jsstring_eqb s (lit "[]") then Return (JArr [])
  else if jsstring_eqb s (lit "null") then Return JNull
  else Throw (ErrorObject (lit "Unexpected token")).

Definition sample_host
  (provider : nat -> ChatRequest -> completion (option jsstring)) : Host :=
  {| number := Z;
     number_truthy := fun z => negb (z =? 0)%Z;
     number_toString := fun z => lit (NilZero.string_of_int (Z.to_int z));
     StringToNumber := fun s =>
       match NilZero.int_of_string (unlit s) with
       | Some i => Z.of_int i
       | None => 0%Z
       end;
     number_of_bool := fun b => if b then 1%Z else 0%Z;
     Date_isValid := sample_Date_isValid;
     toLowerCase_nonascii := fun s => s;
     JSON_parse := sample_JSON_parse;
     event_id := fun n => lit "event-" ++ lit (NilZero.string_of_uint (Nat.to_uint n));
     chat_completions_create := provider |}.

(** A provider that is down. *)
Definition offline : nat -> ChatRequest -> completion (option jsstring) :=
  fun _ _ => Throw (ErrorObject (lit "Connection error."))%string.

Definition H0 : Host := sample_host offline.

Definition w0 : world := {| requests := []; ids_drawn := 0 |}.

Section WithHost.
Variable H : Host.
Abbreviation value := (json (number H)).
Abbreviation Event := (SyllabusEvent (number H)).

(** *** Candidates *)

(** The shape YYYY-MM-DD: four digits, a hyphen, two digits, a hyphen, two
    digits, and nothing else. *)
Definition digits (n : nat) (s : jsstring) : Prop :=
  List.length s = n /\ Forall (fun c => (48 <= c <= 57)%N) s.

Definition iso_date_shape (s : jsstring) : Prop :=
  exists y m d,
    s = y ++ [45%N] ++ m ++ [45%N] ++ d
    /\ digits 4 y /\ digits 2 m /\ digits 2 d.

(** A valid candidate: its title is a string that is not empty once
    trimmed, and its date is a string of the shape YYYY-MM-DD that the
    runtime parses to a date. *)
Definition valid_candidate (event : value) : Prop :=
  exists title date,
    get (Some event) (lit "title") = Some (JStr title)
    /\ trim title <> []
    /\ get (Some event) (lit "date") = Some (JStr date)
    /\ iso_date_shape date
    /\ Date_isValid H date = true.

(** The same with the title only required to be a non-empty string. *)
Definition valid_candidate_untrimmed (event : value) : Prop :=
  exists title date,
    get (Some event) (lit "title") = Some (JStr title)
    /\ title <> []
    /\ get (Some event) (lit "date") = Some (JStr date)
    /\ iso_date_shape date
    /\ Date_isValid H date = true.

(** [String(v)] does not throw. *)
Definition converts (v : option value) : bool :=
  match ToString H v with
  | Return _ => true
  | Throw _ => false
  end.

(** [String(v)] when it does not throw. *)
Definition text_of (v : option value) : jsstring :=
  match ToString H v with
  | Return s => s
  | Throw _ => []
  end.

(** The conversions made for a candidate all succeed. *)
Definition stringifiable (event : value) : bool :=
  let e := Some event in
  converts (or_empty H (get e (lit "description")))
  && (negb (ToBoolean H (get e (lit "time"))) || converts (get e (lit "time")))
  && converts (get e (lit "type"))
  && converts (get e (lit "priority"))
  && (negb (ToBoolean H (get e (lit "location")))
      || converts (get e (lit "location"))).

(** The conversions made for the course fields all succeed. *)
Definition metadata_converts (result : value) : bool :=
  forallb (fun k => negb (ToBoolean H (get (Some result) (lit k)))
                    || converts (get (Some result) (lit k)))
          ["courseName"; "instructor"; "semester"; "year"]%string.

(** [lower] if it is one of [valid], else [fallback]. *)
Definition coerce (valid : list jsstring) (fallback lower : jsstring) : jsstring :=
  if includes valid lower then lower else fallback.

Definition carried (v : option value) : option jsstring :=
  if ToBoolean H v then Some (trim (text_of v)) else None.

(** The event built for a valid candidate, given the id drawn for it. *)
Definition cleaned (n : nat) (event : value) : Event :=
  let e := Some event in
  {| id := Some (event_id H n);
     title := trim (string_of (get e (lit "title")));
     description := trim (text_of (or_empty H (get e (lit "description"))));
     date := string_of (get e (lit "date"));
     time := carried (get e (lit "time"));
     type := coerce validTypes (lit "other")
               (toLowerCase H (text_of (get e (lit "type"))));
     priority := coerce validPriorities (lit "medium")
                   (toLowerCase H (text_of (get e (lit "priority"))));
     course := None;
     location := carried (get e (lit "location"));
     duration := None |}.

Fixpoint cleaned_from (n : nat) (candidates : list value) : list Event :=
  match candidates with
  | [] => []
  | event :: rest => cleaned n event :: cleaned_from (S n) rest
  end.

End WithHost.


Lemma is_digit_iff c : is_digit c = true <-> (48 <= c <= 57)%N.
Proof.
  unfold is_digit. rewrite andb_true_iff, !N.leb_le. tauto.
Qed.

Lemma dateRegex_test_shape d : dateRegex_test d = true <-> iso_date_shape d.
Proof.
  split.
  - destruct d as [|y1 [|y2 [|y3 [|y4 [|h1 [|m1 [|m2 [|h2 [|d1 [|d2 [|? ?]]]]]]]]]]];
      try discriminate.
    cbn [dateRegex_test]. rewrite !andb_true_iff, !is_digit_iff, !N.eqb_eq.
    intros [[[[[[[[[? ?] ?] ?] ->] ?] ?] ->] ?] ?].
    exists [y1; y2; y3; y4], [m1; m2], [d1; d2].
    repeat split; auto.
  - intros (y & m & dd & -> & [Ly Fy] & [Lm Fm] & [Ld Fd]).
    destruct y as [|y1 [|y2 [|y3 [|y4 [|? ?]]]]]; try discriminate.
    destruct m as [|m1 [|m2 [|? ?]]]; try discriminate.
    destruct dd as [|d1 [|d2 [|? ?]]]; try discriminate.
    cbn [app dateRegex_test].
    repeat match goal with
      | F : Forall _ (_ :: _) |- _ => inversion F; subst; clear F
      end.
    rewrite !andb_true_iff, !is_digit_iff, !N.eqb_eq. tauto.
Qed.

Section WithHost.
Variable H : Host.
Abbreviation value := (json (number H)).

Lemma get_Some_truthy (event : value) k v :
  get (Some event) k = Some v -> ToBoolean H (Some event) = true.
Proof. destruct event; try discriminate. reflexivity. Qed.

Lemma trim_nonempty (s : jsstring) :
  (0 <? List.length (trim s)) = true <-> trim s <> [].
Proof.
  rewrite Nat.ltb_lt. destruct (trim s); simpl; split; intros;
    try congruence; try lia.
Qed.

(** The code's test of a candidate is the definition of a valid candidate. *)
Lemma isValidEvent_valid (event : value) :
  isValidEvent H event = true <-> valid_candidate H event.
Proof.
  unfold isValidEvent, valid_candidate, isValidDateFormat. split.
  - rewrite !andb_true_iff. intros [[[[_ Ht] Hl] Hd] Hf].
    destruct (get (Some event) (lit "title")) as [[| | |title| |]|];
      try discriminate.
    destruct (get (Some event) (lit "date")) as [[| | |date| |]|];
      try discriminate.
    cbn [string_of] in *. exists title, date.
    destruct (dateRegex_test date) eqn:Er; [|discriminate].
    cbn [negb] in Hf.
    repeat split; auto.
    + now apply trim_nonempty.
    + now apply dateRegex_test_shape.
  - intros (title & date & Et & Hn & Ed & Hs & Hv).
    rewrite (get_Some_truthy _ _ Et), Et, Ed. cbn [typeof_string string_of andb].
    apply trim_nonempty in Hn. rewrite Hn. cbn [andb].
    apply dateRegex_test_shape in Hs. now rewrite Hs.
Qed.

(** *** Running the validator *)

Lemma bind_run {A B} (c : M A) (k : A -> M B) w :
  bind c k w =
  match c w with
  | (Return a, w') => k a w'
  | (Throw e, w') => (Throw e, w')
  end.
Proof. reflexivity. Qed.

Lemma converts_text v : converts H v = true -> ToString H v = Return (text_of H v).
Proof. unfold converts, text_of. now destruct (ToString H v). Qed.

Lemma trimmed_if_truthy_run v w :
  negb (ToBoolean H v) || converts H v = true ->
  trimmed_if_truthy H v w = (Return (carried H v), w).
Proof.
  unfold trimmed_if_truthy, carried. destruct (ToBoolean H v); [|reflexivity].
  cbn [negb orb]. intros Hc. rewrite bind_run. unfold lift.
  now rewrite (converts_text _ Hc).
Qed.

Definition drew (n : nat) (w : world) : world :=
  {| requests := requests w; ids_drawn := n + ids_drawn w |}.

Lemma cleanEvent_run (event : value) w :
  isValidEvent H event = true ->
  stringifiable H event = true ->
  cleanEvent H event w = (Return (cleaned H (ids_drawn w) event), drew 1 w).
Proof.
  intros Hv Hs. pose proof Hv as Hv'.
  apply isValidEvent_valid in Hv' as (title & date & Et & Hn & Ed & Hsh & Hd).
  unfold stringifiable in Hs. rewrite !andb_true_iff in Hs.
  destruct Hs as [[[[Hde Hti] Hty] Hpr] Hlo].
  unfold cleanEvent, cleaned.
  rewrite bind_run. cbn [generateEventId].
  rewrite bind_run. unfold lift at 1. rewrite Et. cbn [ToString ToString_json].
  rewrite bind_run. unfold lift at 1. rewrite (converts_text _ Hde).
  rewrite bind_run. unfold lift at 1. rewrite Ed. cbn [string_of].
  unfold validateDate, isValidDateFormat.
  apply dateRegex_test_shape in Hsh. rewrite Hsh, Hd. cbn [negb].
  rewrite bind_run, (trimmed_if_truthy_run _ _ Hti).
  rewrite bind_run. unfold lift at 1. unfold validateEventType.
  rewrite (converts_text _ Hty).
  rewrite bind_run. unfold lift at 1. unfold validatePriority.
  rewrite (converts_text _ Hpr).
  rewrite bind_run, (trimmed_if_truthy_run _ _ Hlo).
  reflexivity.
Qed.

Lemma drew_drew a b w : drew a (drew b w) = drew (a + b) w.
Proof. unfold drew. cbn. f_equal. lia. Qed.

Lemma cleanEvents_run (candidates : list value) w :
  (forall event, In event candidates -> isValidEvent H event = true ->
                 stringifiable H event = true) ->
  cleanEvents H candidates w =
  (Return (cleaned_from H (ids_drawn w) (filter (isValidEvent H) candidates)),
   drew (List.length (filter (isValidEvent H) candidates)) w).
Proof.
  revert w; induction candidates as [|event rest IH]; intros w Hall.
  - destruct w; reflexivity.
  - cbn [cleanEvents filter].
    assert (Hrest : forall e, In e rest -> isValidEvent H e = true ->
                              stringifiable H e = true)
      by (intros e He; apply Hall; now right).
    destruct (isValidEvent H event) eqn:Ev; [|now apply IH].
    rewrite bind_run, (cleanEvent_run _ w Ev (Hall _ (or_introl eq_refl) Ev)).
    rewrite bind_run, (IH _ Hrest). cbn [ret cleaned_from List.length].
    rewrite drew_drew, Nat.add_1_r. reflexivity.
Qed.


Lemma ToNumber_converts v :
  converts H v = true -> exists n, ToNumber H v = Return n.
Proof.
  unfold converts, ToNumber, ToString.
  destruct v as [[| | | | |]|]; eauto;
    destruct (ToString_json H _); try discriminate; eauto.
Qed.

Lemma year_run v w :
  negb (ToBoolean H v) || converts H v = true ->
  exists y,
    (if ToBoolean H v
     then bind (lift (ToNumber H v)) (fun n => ret (Some n))
     else ret None) w = (Return y, w).
Proof.
  destruct (ToBoolean H v); [|now exists None].
  cbn [negb orb]. intros Hc. destruct (ToNumber_converts _ Hc) as [n Hn].
  exists (Some n). rewrite bind_run. unfold lift. now rewrite Hn.
Qed.

Lemma validateAndCleanResult_run members (candidates : list value) w :
  get (Some (JObj members)) (lit "events") = Some (JArr candidates) ->
  (forall event, In event candidates -> isValidEvent H event = true ->
                 stringifiable H event = true) ->
  metadata_converts H (JObj members) = true ->
  exists r,
    validateAndCleanResult H (JObj members) w
    = (Return r, drew (List.length (filter (isValidEvent H) candidates)) w)
    /\ events r
       = cleaned_from H (ids_drawn w) (filter (isValidEvent H) candidates).
Proof.
  intros He Hall Hm. unfold metadata_converts in Hm. cbn [forallb] in Hm.
  rewrite !andb_true_iff in Hm. destruct Hm as (Hc & Hi & Hs & Hy & _).
  unfold validateAndCleanResult.
  cbn [ToBoolean typeof_object negb orb]. rewrite He.
  rewrite bind_run, (cleanEvents_run _ w Hall).
  rewrite bind_run, (trimmed_if_truthy_run _ _ Hc).
  rewrite bind_run, (trimmed_if_truthy_run _ _ Hi).
  rewrite bind_run, (trimmed_if_truthy_run _ _ Hs).
  rewrite bind_run.
  destruct (year_run _ (drew (List.length (filter (isValidEvent H) candidates)) w) Hy)
    as [y ->].
  eexists. split; reflexivity.
Qed.

End WithHost.

(** *** The claims *)

Definition candidate {number} (members : list (string * json number))
  : json number :=
  JObj (List.map (fun kv => (lit (fst kv), snd kv)) members).

Definition str {number} (s : string) : json number := JStr (lit s).

(** The reply of the specification's example. *)
Definition example_reply {number} : json number :=
  candidate
    [("events",
      JArr [candidate [("title", str "A"); ("date", str "2024-09-15")];
            candidate [("title", str ""); ("date", str "2024-09-16")];
            candidate [("title", str "B"); ("date", str "not-a-date")]])]%string.

(** C1 (amended). For every reply that is an object with an [events] array
    and whose converted fields all convert, the validator returns a result
    whose events are built from exactly the valid candidates, in order, a
    valid candidate being one whose title is a string that is not empty
    after trimming and whose date is a string of the shape YYYY-MM-DD that
    parses to a date; invalid candidates do not make it fail.  For the
    example reply the result holds one event, titled A. *)
Theorem validator_keeps_valid_candidates
  (H : Host) members (candidates : list (json (number H))) (w : world) :
  get (Some (JObj members)) (lit "events") = Some (JArr candidates) ->
  (forall event, In event candidates -> valid_candidate H event ->
                 stringifiable H event = true) ->
  metadata_converts H (JObj members) = true ->
  Date_isValid H (lit "2024-09-15") = true ->
  (exists r w',
      validateAndCleanResult H (JObj members) w = (Return r, w')
      /\ events r
         = cleaned_from H (ids_drawn w) (filter (isValidEvent H) candidates)
      /\ forall event, In event (filter (isValidEvent H) candidates)
                       <-> In event candidates /\ valid_candidate H event)
  /\ (exists r w' ev,
         validateAndCleanResult H example_reply w = (Return r, w')
         /\ events r = [ev] /\ title ev = lit "A").
Proof.
  intros He Hall Hm Hd. split.
  - destruct (validateAndCleanResult_run H members w He) as (r & Hr & Hev);
      [|assumption|].
    + intros event Hin Hv. apply Hall; [assumption|].
      now apply isValidEvent_valid.
    + exists r. eexists. split; [exact Hr|]. split; [exact Hev|].
      intros event. rewrite filter_In, isValidEvent_valid. tauto.
  - pose (cands := [candidate [("title", str "A"); ("date", str "2024-09-15")];
                    candidate [("title", str ""); ("date", str "2024-09-16")];
                    candidate [("title", str "B"); ("date", str "not-a-date")]]%string
                   : list (json (number H))).
    assert (Hf : filter (isValidEvent H) cands
                 = [candidate [("title", str "A"); ("date", str "2024-09-15")]%string]).
    { cbn. unfold isValidDateFormat. cbn. cbn in Hd. now rewrite Hd. }
    pose (members' := [(lit "events", JArr cands)]).
    change (@example_reply (number H)) with (JObj members').
    destruct (validateAndCleanResult_run H members' w (candidates := cands) eq_refl)
      as (r & Hr & Hev).
    + intros event Hin _. cbn in Hin.
      destruct Hin as [<-|[<-|[<-|[]]]]; reflexivity.
    + reflexivity.
    + rewrite Hf in Hev. do 3 eexists. split; [exact Hr|].
      split; [exact Hev | reflexivity].
Qed.

Lemma validator_keeps_valid_candidates_witness :
  Date_isValid H0 (lit "2024-09-15") = true
  /\ exists r w' ev,
       validateAndCleanResult H0 example_reply w0 = (Return r, w')
       /\ events r = [ev] /\ title ev = lit "A".
Proof.
  split; [reflexivity|].
  refine (proj2 (@validator_keeps_valid_candidates H0
                   [(lit "events",
                     JArr [candidate [("title", str "A"); ("date", str "2024-09-15")];
                           candidate [("title", str ""); ("date", str "2024-09-16")];
                           candidate [("title", str "B"); ("date", str "not-a-date")]])]%string
                   _ w0 eq_refl _ eq_refl eq_refl)).
  intros event Hin _. cbn in Hin.
  destruct Hin as [<-|[<-|[<-|[]]]]; reflexivity.
Defined.

(** A candidate whose title is one space. *)
Definition blank_title_reply : json Z :=
  candidate
    [("events",
      JArr [candidate [("title", str " "); ("date", str "2024-09-15")]])]%string.

(** C1 as stated fails: a title of one space is a non-empty string, so the
    candidate counts as valid by the claim's words, and the validator drops
    it. *)
Lemma blank_title_dropped :
  valid_candidate_untrimmed H0
    (candidate [("title", str " "); ("date", str "2024-09-15")]%string)
  /\ fst (validateAndCleanResult H0 blank_title_reply w0)
     = Return {| events := []; courseName := None; instructor := None;
                 semester := None; year := None |}.
Proof.
  split; [|reflexivity].
  exists (lit " "), (lit "2024-09-15").
  repeat split; try reflexivity; try discriminate.
  exists (lit "2024"), (lit "09"), (lit "15").
  repeat split; try reflexivity;
    repeat constructor; cbv; discriminate.
Qed.


(** C5 as stated fails: a time and a location of white space only are
    carried through, as empty strings; the fields are not absent. *)
Lemma blank_time_carried :
  isValidEvent H0
    (candidate [("title", str "A"); ("date", str "2024-09-15");
                ("time", str "   "); ("location", str " ")]%string) = true
  /\ fst (cleanEvent H0
            (candidate [("title", str "A"); ("date", str "2024-09-15");
                        ("time", str "   "); ("location", str " ")]%string) w0)
     = Return {| id := Some (lit "event-0");
                 title := lit "A";
                 description := [];
                 date := lit "2024-09-15";
                 time := Some [];
                 type := lit "other";
                 priority := lit "medium";
                 course := None;
                 location := Some [];
                 duration := None |}.
Proof. split; reflexivity. Qed.

Lemma carried_string (H : Host) (s : jsstring) :
  carried H (Some (JStr s)) =
  match s with
  | [] => None
  | _ :: _ => Some (trim s)
  end.
Proof. unfold carried, text_of. now destruct s. Qed.

(** The built field is the candidate's value, converted and trimmed, if
    that value is truthy, and absent otherwise. *)
Definition carried_when_truthy (H : Host) (v : option (json (number H)))
  (field : option jsstring) : Prop :=
  field = (if ToBoolean H v then Some (trim (text_of H v)) else None)
  /\ (v = None \/ v = Some JNull \/ v = Some (JStr []) -> field = None)
  /\ (forall c s, v = Some (JStr (c :: s)) -> field = Some (trim (c :: s))).

Lemma carried_spec (H : Host) v : carried_when_truthy H v (carried H v).
Proof.
  split; [reflexivity|]. split.
  - intros [ -> | [ -> | -> ] ]; reflexivity.
  - intros c s ->. apply carried_string.
Qed.

(** C5 (amended). For every valid candidate whose fields convert, the
    event built carries [time] (and likewise [location]), converted to a
    string and trimmed, exactly when the candidate's value is truthy: a
    missing, [null] or empty value leaves the field absent, and a non-empty
    string is carried through trimmed, which for a string of white space
    only is the empty string. *)
Theorem optional_fields_carried_when_truthy
  (H : Host) (event : json (number H)) (w : world) :
  isValidEvent H event = true ->
  stringifiable H event = true ->
  exists ev w',
    cleanEvent H event w = (Return ev, w')
    /\ carried_when_truthy H (get (Some event) (lit "time")) (time ev)
    /\ carried_when_truthy H (get (Some event) (lit "location")) (location ev).
Proof.
  intros Hv Hs. exists (cleaned H (ids_drawn w) event), (drew 1 w).
  split; [now apply cleanEvent_run|].
  split; apply carried_spec.
Qed.

Lemma optional_fields_carried_when_truthy_witness :
  exists ev w',
    cleanEvent H0
      (candidate [("title", str "A"); ("date", str "2024-09-15");
                  ("time", str " 09:30 ")]%string) w0 = (Return ev, w')
    /\ time ev = Some (lit "09:30") /\ location ev = None.
Proof.
  destruct (@optional_fields_carried_when_truthy H0
              (candidate [("title", str "A"); ("date", str "2024-09-15");
                          ("time", str " 09:30 ")]%string) w0 eq_refl eq_refl)
    as (ev & w' & Hr & K).
  exists ev, w'. split; [exact Hr|]. split.
  - exact (proj2 (proj2 (proj1 K)) _ _ eq_refl).
  - exact (proj1 (proj2 (proj2 K)) (or_introl eq_refl)).
Defined.


(** *** Coercion of [type] and [priority] *)

Section Coercion.
Variable H : Host.

Lemma validateEventType_run (v : option (json (number H))) :
  converts H v = true ->
  validateEventType H v
  = Return (coerce validTypes (lit "other") (toLowerCase H (text_of H v))).
Proof.
  intros Hc. unfold validateEventType. now rewrite (converts_text _ _ Hc).
Qed.

Lemma validatePriority_run (v : option (json (number H))) :
  converts H v = true ->
  validatePriority H v
  = Return (coerce validPriorities (lit "medium") (toLowerCase H (text_of H v))).
Proof.
  intros Hc. unfold validatePriority. now rewrite (converts_text _ _ Hc).
Qed.

Lemma coerce_spec valid fallback lower :
  In fallback valid ->
  In (coerce valid fallback lower) valid
  /\ (In lower valid -> coerce valid fallback lower = lower)
  /\ (~ In lower valid -> coerce valid fallback lower = fallback).
Proof.
  intros Hf. unfold coerce.
  destruct (includes valid lower) eqn:E.
  - apply includes_In in E. repeat split; tauto.
  - repeat split; auto. intros Hin. apply includes_In in Hin. congruence.
Qed.

End Coercion.

(** C6 as stated fails: a [type] (or [priority]) that is an object with a
    member named [toString] is not coerced; the conversion throws, and with
    it the whole validation. *)
Lemma unconvertible_type_throws :
  validateEventType H0 (Some (candidate [("toString", JNum 1%Z)]%string))
  = Throw TypeError
  /\ validatePriority H0 (Some (candidate [("toString", JNum 1%Z)]%string))
     = Throw TypeError
  /\ fst (validateAndCleanResult H0
            (candidate
               [("events",
                 JArr [candidate
                         [("title", str "A"); ("date", str "2024-09-15");
                          ("type", candidate [("toString", JNum 1%Z)])]])]%string)
            w0)
     = Throw TypeError.
Proof. repeat split; reflexivity. Qed.

(** C6 (amended). For every candidate whose [type] (resp. [priority]) value
    [String] converts, the validator coerces it to a member of the closed
    set of types (resp. priorities): the lower-cased text if that is a
    member, and otherwise, also for a missing value, [other] (resp.
    [medium]). *)
Theorem type_and_priority_coerced (H : Host) (v : option (json (number H))) :
  converts H v = true ->
  let lower := toLowerCase H (text_of H v) in
  (exists t, validateEventType H v = Return t
             /\ In t validTypes
             /\ (In lower validTypes -> t = lower)
             /\ (~ In lower validTypes -> t = lit "other"))
  /\ (exists p, validatePriority H v = Return p
                /\ In p validPriorities
                /\ (In lower validPriorities -> p = lower)
                /\ (~ In lower validPriorities -> p = lit "medium"))
  /\ validTypes = List.map lit ["assignment"; "exam"; "reading"; "lecture";
                                "project"; "quiz"; "other"]%string
  /\ validPriorities = List.map lit ["high"; "medium"; "low"]%string
  /\ validateEventType H (Some (str "seminar")) = Return (lit "other")
  /\ validateEventType H None = Return (lit "other")
  /\ validatePriority H (Some (str "urgent")) = Return (lit "medium")
  /\ validatePriority H None = Return (lit "medium").
Proof.
  intros Hc lower. split; [|split].
  - eexists. split; [now apply validateEventType_run|].
    apply coerce_spec. cbn. tauto.
  - eexists. split; [now apply validatePriority_run|].
    apply coerce_spec. cbn. tauto.
  - repeat split; reflexivity.
Qed.

Lemma type_and_priority_coerced_witness :
  exists t, validateEventType H0 (Some (JNum 7%Z)) = Return t
            /\ In t validTypes.
Proof.
  destruct (proj1 (@type_and_priority_coerced H0 (Some (JNum 7%Z)) eq_refl))
    as (t & Ht & Hin & _).
  exists t. split; assumption.
Defined.

(** C9. Coercion ignores case: a [type] or [priority] string whose
    lower-cased text is a member of the valid set is kept, lower-cased,
    not replaced by [other] or [medium]; so [EXAM] gives [exam] and [High]
    gives [high]. *)
Theorem coercion_ignores_case (H : Host) (s : jsstring) :
  (In (toLowerCase H s) validTypes ->
   validateEventType H (Some (JStr s)) = Return (toLowerCase H s)
   /\ forall event w,
        isValidEvent H event = true -> stringifiable H event = true ->
        get (Some event) (lit "type") = Some (JStr s) ->
        exists ev w', cleanEvent H event w = (Return ev, w')
                      /\ type ev = toLowerCase H s)
  /\ (In (toLowerCase H s) validPriorities ->
      validatePriority H (Some (JStr s)) = Return (toLowerCase H s)
      /\ forall event w,
           isValidEvent H event = true -> stringifiable H event = true ->
           get (Some event) (lit "priority") = Some (JStr s) ->
           exists ev w', cleanEvent H event w = (Return ev, w')
                         /\ priority ev = toLowerCase H s)
  /\ validateEventType H (Some (str "EXAM")) = Return (lit "exam")
  /\ validatePriority H (Some (str "High")) = Return (lit "high").
Proof.
  split; [|split; [|split; reflexivity]].
  - intros Hin.
    assert (E : coerce validTypes (lit "other") (toLowerCase H s) = toLowerCase H s)
      by (apply coerce_spec; [cbn; tauto | exact Hin]).
    split.
    + rewrite validateEventType_run by reflexivity. now f_equal.
    + intros event w Hv Hs Hg. eexists. eexists.
      split; [now apply cleanEvent_run|]. cbn [type cleaned]. now rewrite Hg.
  - intros Hin.
    assert (E : coerce validPriorities (lit "medium") (toLowerCase H s)
                = toLowerCase H s)
      by (apply coerce_spec; [cbn; tauto | exact Hin]).
    split.
    + rewrite validatePriority_run by reflexivity. now f_equal.
    + intros event w Hv Hs Hg. eexists. eexists.
      split; [now apply cleanEvent_run|]. cbn [priority cleaned]. now rewrite Hg.
Qed.

Lemma coercion_ignores_case_witness :
  validateEventType H0 (Some (str "Quiz")) = Return (lit "quiz")
  /\ exists ev w',
       cleanEvent H0
         (candidate [("title", str "A"); ("date", str "2024-09-15");
                     ("type", str "Quiz")]%string) w0 = (Return ev, w')
       /\ type ev = lit "quiz".
Proof.
  assert (Hin : In (toLowerCase H0 (lit "Quiz")) validTypes)
    by (cbn; tauto).
  destruct (proj1 (coercion_ignores_case H0 (lit "Quiz")) Hin) as [Hf Hev].
  split; [exact Hf|].
  exact (Hev (candidate [("title", str "A"); ("date", str "2024-09-15");
                         ("type", str "Quiz")]%string) w0
             eq_refl eq_refl eq_refl).
Defined.

End Validator.

(** ** The prompt builder *)

Module Prompt.
Import JS PDFProcessor SyllabusProcessor.

(** C4 as stated fails: the prompt does not end with the syllabus text;
    the closing instruction follows it.  The text used here is a cleaned
    text of more than 50 characters. *)
Lemma prompt_does_not_end_with_text :
  let s := lit "Homework 1 is due on 2024-09-15 at the start of class" in
  cleanText s = s
  /\ 50 <= List.length s
  /\ ~ exists before, createExtractionPrompt s = before ++ s.
Proof.
  split; [reflexivity|]. split; [vm_compute; lia|].
  intros [before E]. apply (f_equal (@rev char16)) in E.
  rewrite rev_app_distr in E. vm_compute in E. discriminate.
Qed.

(** C4 (amended). The prompt is the fixed instruction text, then the
    syllabus text character for character, then the fixed closing
    instruction: the text sits right behind the line [Syllabus text:] and
    right before the closing instruction, which ends the prompt.  The
    builder is a function on strings; it sends no request. *)
Theorem prompt_embeds_text (s : jsstring) :
  let prompt := createExtractionPrompt s in
  firstn (List.length prompt_head) prompt = prompt_head
  /\ firstn (List.length s) (skipn (List.length prompt_head) prompt) = s
  /\ skipn (List.length prompt_head + List.length s) prompt = prompt_tail
  /\ List.length prompt
     = List.length prompt_head + List.length s + List.length prompt_tail
  /\ (exists before, prompt_head = before ++ lit "
Syllabus text:
")
  /\ prompt_tail = lit "

Return only valid JSON, no additional text or explanations.".
Proof.
  unfold createExtractionPrompt. cbv zeta.
  split; [|split; [|split; [|split; [|split]]]].
  - rewrite firstn_app, Nat.sub_diag, firstn_all. cbn [firstn]. apply app_nil_r.
  - rewrite skipn_app, Nat.sub_diag, skipn_all. cbn [skipn app].
    rewrite firstn_app, Nat.sub_diag, firstn_all. cbn [firstn]. apply app_nil_r.
  - rewrite app_assoc, <- length_app, skipn_app, Nat.sub_diag, skipn_all.
    reflexivity.
  - rewrite !length_app. lia.
  - exists (firstn (List.length prompt_head - 16) prompt_head).
    vm_compute. reflexivity.
  - reflexivity.
Qed.

End Prompt.

(** ** The model calls and the fallback *)

Module Fallback.
Import JS Json SyllabusProcessor Validator.

Definition primary_request (text : jsstring) : ChatRequest :=
  chat_request (lit "gpt-4") (createExtractionPrompt text) 3000.

Definition fallback_request (text : jsstring) : ChatRequest :=
  chat_request (lit "gpt-3.5-turbo") (createExtractionPrompt text) 2000.

(** What [extractEventsWithFallback] makes of the fallback attempt. *)
Definition after_fallback {A} (attempt : completion A * world)
  : completion A * world :=
  match attempt with
  | (Return r, w) => (Return r, w)
  | (Throw _, w) => (Throw ExtractionFailed, w)
  end.

(** [s.includes(part)] *)
Fixpoint starts (part s : jsstring) : bool :=
  match part, s with
  | [], _ => true
  | a :: part', b :: s' => (a =? b)%N && starts part' s'
  | _ :: _, [] => false
  end.

Fixpoint occurs_in (part s : jsstring) : bool :=
  starts part s
  || match s with
     | [] => false
     | _ :: s' => occurs_in part s'
     end.

(** A computation that sends no request. *)
Definition silent {A} (c : M A) : Prop :=
  forall w, requests (snd (c w)) = requests w.

Lemma silent_ret {A} (a : A) : silent (ret a).
Proof. intros w. reflexivity. Qed.

Lemma silent_throw {A} e : silent (@throw A e).
Proof. intros w. reflexivity. Qed.

Lemma silent_lift {A} (c : completion A) : silent (lift c).
Proof. intros w. reflexivity. Qed.

Lemma silent_bind {A B} (c : M A) (k : A -> M B) :
  silent c -> (forall a, silent (k a)) -> silent (bind c k).
Proof.
  intros Hc Hk w. unfold bind. specialize (Hc w).
  destruct (c w) as [[a|e] w']; cbn [snd] in *; [|assumption].
  now rewrite Hk.
Qed.

Lemma silent_try_catch {A} (c : M A) (h : thrown -> M A) :
  silent c -> (forall e, silent (h e)) -> silent (try_catch c h).
Proof.
  intros Hc Hh w. unfold try_catch. specialize (Hc w).
  destruct (c w) as [[a|e] w']; cbn [snd] in *; [assumption|].
  now rewrite Hh.
Qed.

Create HintDb silent.
#[local] Hint Resolve silent_ret silent_throw silent_lift : silent.

Section WithHost.
Variable H : Host.

Lemma silent_trimmed_if_truthy v : silent (trimmed_if_truthy H v).
Proof.
  unfold trimmed_if_truthy. destruct (ToBoolean H v); auto with silent.
  apply silent_bind; auto with silent.
Qed.

Lemma silent_cleanEvent event : silent (cleanEvent H event).
Proof.
  unfold cleanEvent.
  repeat (apply silent_bind; [|intros ?]);
    auto using silent_trimmed_if_truthy with silent.
  intros w. reflexivity.
Qed.

Lemma silent_cleanEvents candidates : silent (cleanEvents H candidates).
Proof.
  induction candidates as [|event rest IH]; cbn [cleanEvents];
    auto with silent.
  destruct (isValidEvent H event); [|assumption].
  apply silent_bind; [apply silent_cleanEvent|]. intros ev.
  apply silent_bind; auto with silent.
Qed.

Lemma silent_validateAndCleanResult result :
  silent (validateAndCleanResult H result).
Proof.
  unfold validateAndCleanResult.
  destruct (_ || _); auto with silent.
  repeat (apply silent_bind; [|intros ?]);
    auto using silent_trimmed_if_truthy with silent.
  - destruct (get _ _) as [[| | | |candidates|]|];
      auto using silent_cleanEvents with silent.
  - destruct (ToBoolean H _); auto with silent.
    apply silent_bind; auto with silent.
Qed.

Lemma silent_require_content content : silent (require_content content).
Proof. destruct content as [[|c s]|]; cbn; auto with silent. Qed.

Lemma try_catch_requests {A} (c : M A) (h : thrown -> M A) w :
  (forall e, silent (h e)) ->
  requests (snd (try_catch c h w)) = requests (snd (c w)).
Proof.
  intros Hh. unfold try_catch.
  destruct (c w) as [[a|e] w']; cbn [snd]; [reflexivity | apply Hh].
Qed.

Lemma create_then {A} request (k : option jsstring -> M A) w :
  (forall r, silent (k r)) ->
  requests (snd (bind (create H request) k w)) = requests w ++ [request].
Proof.
  intros Hk. rewrite bind_run. cbn [create].
  destruct (chat_completions_create H _ _) as [r|e]; [|reflexivity].
  now rewrite Hk.
Qed.

(** Each attempt sends exactly its one request. *)
Lemma extractEvents_requests text w :
  requests (snd (extractEvents H text w)) = requests w ++ [primary_request text].
Proof.
  unfold extractEvents. rewrite try_catch_requests by auto with silent.
  cbv zeta. apply create_then.
  intros r. apply silent_bind; [apply silent_require_content|]. intros c.
  apply silent_bind; [|intros v; apply silent_validateAndCleanResult].
  apply silent_try_catch; auto with silent.
Qed.

Lemma fallbackAttempt_requests text w :
  requests (snd (fallbackAttempt H text w))
  = requests w ++ [fallback_request text].
Proof.
  unfold fallbackAttempt. cbv zeta. apply create_then.
  intros r. apply silent_bind; [apply silent_require_content|]. intros c.
  apply silent_bind; [|intros v; apply silent_validateAndCleanResult].
  auto with silent.
Qed.

Lemma extractEventsWithFallback_run text w :
  extractEventsWithFallback H text w =
  match extractEvents H text w with
  | (Return r, w1) => (Return r, w1)
  | (Throw _, w1) => after_fallback (fallbackAttempt H text w1)
  end.
Proof.
  unfold extractEventsWithFallback, try_catch at 1, after_fallback.
  destruct (extractEvents H text w) as [[r|e] w1]; [reflexivity|].
  unfold try_catch, throw.
  now destruct (fallbackAttempt H text w1) as [[r|e'] w2].
Qed.

End WithHost.


Definition sent (request : ChatRequest) (w : world) : world :=
  {| requests := requests w ++ [request]; ids_drawn := ids_drawn w |}.

Lemma after_fallback_requests {A} (attempt : completion A * world) :
  requests (snd (after_fallback attempt)) = requests (snd attempt).
Proof. now destruct attempt as [[r|e] w]. Qed.

(** After a failed primary attempt the outcome is the fallback attempt's,
    and the two requests are all that was sent. *)
Lemma failed_primary_outcome
  (H : Host) (text : jsstring) (w w1 : world) (e : thrown) :
  extractEvents H text w = (Throw e, w1) ->
  extractEventsWithFallback H text w
  = after_fallback (fallbackAttempt H text w1)
  /\ requests (snd (extractEventsWithFallback H text w))
     = requests w ++ [primary_request text; fallback_request text].
Proof.
  intros He.
  assert (K : extractEventsWithFallback H text w
              = after_fallback (fallbackAttempt H text w1))
    by (now rewrite extractEventsWithFallback_run, He).
  split; [exact K|].
  rewrite K, after_fallback_requests, fallbackAttempt_requests.
  pose proof (extractEvents_requests H text w) as R.
  rewrite He in R. cbn [snd] in R. rewrite R, <- app_assoc. reflexivity.
Qed.

(** A provider whose first call fails and whose second call fails with the
    given message. *)
Definition failing_twice (second : string)
  : nat -> ChatRequest -> completion (option jsstring) :=
  fun n _ =>
    match n with
    | O => Throw (ErrorObject (lit "Connection error."))
    | _ => Throw (ErrorObject (lit second))
    end.

(** C2 as stated fails: when both attempts fail, the error surfaced is the
    fixed message; it does not contain the fallback's cause, and is the same
    for two different causes. *)
Lemma surfaced_error_hides_fallback_cause :
  let text := lit "Final exam: 2024-12-10" in
  let H1 := sample_host (failing_twice "Request timed out.") in
  let H2 := sample_host (failing_twice "Rate limit reached.") in
  fst (fallbackAttempt H1 text (snd (extractEvents H1 text w0)))
  = Throw (ErrorObject (lit "Request timed out."))
  /\ fst (extractEventsWithFallback H1 text w0) = Throw ExtractionFailed
  /\ occurs_in (lit "Request timed out.") (message_or [] ExtractionFailed) = false
  /\ fst (fallbackAttempt H2 text (snd (extractEvents H2 text w0)))
     = Throw (ErrorObject (lit "Rate limit reached."))
  /\ fst (extractEventsWithFallback H2 text w0) = Throw ExtractionFailed.
Proof. repeat split; vm_compute; reflexivity. Qed.

(** C2 (amended). When the primary attempt fails, the pipeline makes
    exactly one more request, to the secondary model and with the identical
    prompt; if that attempt fails too, the caller gets the fixed
    extraction-failed error, whatever the cause of either failure. *)
Theorem fallback_once_then_fixed_error
  (H : Host) (text : jsstring) (w w1 : world) (e : thrown) :
  extractEvents H text w = (Throw e, w1) ->
  let outcome := extractEventsWithFallback H text w in
  outcome = after_fallback (fallbackAttempt H text w1)
  /\ requests (snd outcome)
     = requests w ++ [primary_request text; fallback_request text]
  /\ model (fallback_request text) = lit "gpt-3.5-turbo"
  /\ messages (fallback_request text) = messages (primary_request text)
  /\ In (lit "user", createExtractionPrompt text)
        (messages (fallback_request text))
  /\ (forall cause w2,
        fallbackAttempt H text w1 = (Throw cause, w2) ->
        outcome = (Throw ExtractionFailed, w2)).
Proof.
  intros He outcome.
  destruct (failed_primary_outcome H text w He) as [K R].
  split; [exact K|]. split; [exact R|].
  split; [reflexivity|]. split; [reflexivity|]. split; [cbn; tauto|].
  intros cause w2 Hf. subst outcome. now rewrite K, Hf.
Qed.

Lemma fallback_once_then_fixed_error_witness :
  List.map model (requests (snd (extractEventsWithFallback H0 (lit "Quiz 1") w0)))
  = [lit "gpt-4"; lit "gpt-3.5-turbo"].
Proof.
  rewrite (proj1 (proj2 (@fallback_once_then_fixed_error H0 (lit "Quiz 1") w0
                           (sent (primary_request (lit "Quiz 1")) w0)
                           (ProcessingFailed (ErrorObject (lit "Connection error.")))
                           eq_refl))).
  reflexivity.
Defined.

(** C8. A primary reply that arrives but does not parse as JSON, or parses
    to something that is not an object, does not end the request: the
    primary attempt fails, the fallback request is sent, and the outcome is
    the fallback attempt's; the request fails only if that attempt fails
    too. *)
Theorem malformed_primary_reply_falls_back
  (H : Host) (text : jsstring) (w : world) (c : char16) (content : jsstring) :
  chat_completions_create H (List.length (requests w)) (primary_request text)
  = Return (Some (c :: content)) ->
  ((exists parseError, JSON_parse H (c :: content) = Throw parseError)
   \/ (exists v, JSON_parse H (c :: content) = Return v
                 /\ (ToBoolean H (Some v) = false
                     \/ typeof_object (Some v) = false))) ->
  let w1 := sent (primary_request text) w in
  let outcome := extractEventsWithFallback H text w in
  (exists e, (e = InvalidJSON \/ e = InvalidResult)
             /\ extractEvents H text w = (Throw (ProcessingFailed e), w1))
  /\ outcome = after_fallback (fallbackAttempt H text w1)
  /\ requests (snd outcome)
     = requests w ++ [primary_request text; fallback_request text]
  /\ (forall r w2, fallbackAttempt H text w1 = (Return r, w2) ->
                   outcome = (Return r, w2))
  /\ (forall cause w2, fallbackAttempt H text w1 = (Throw cause, w2) ->
                       outcome = (Throw ExtractionFailed, w2)).
Proof.
  intros Hc Hbad w1 outcome.
  assert (E : exists e, (e = InvalidJSON \/ e = InvalidResult)
                        /\ extractEvents H text w = (Throw (ProcessingFailed e), w1)).
  { unfold extractEvents, try_catch at 1. cbv zeta.
    rewrite bind_run. cbn [create]. fold (primary_request text). rewrite Hc.
    fold (sent (primary_request text) w). fold w1.
    rewrite bind_run. cbn [require_content ret].
    rewrite bind_run. unfold try_catch, lift.
    destruct Hbad as [[parseError ->] | (v & -> & Hv)].
    - exists InvalidJSON. split; [now left | reflexivity].
    - exists InvalidResult. split; [now right|].
      unfold validateAndCleanResult.
      destruct Hv as [-> | ->]; cbn [negb orb]; rewrite ?orb_true_r;
        reflexivity. }
  destruct E as (e & He & Hr).
  destruct (failed_primary_outcome H text w Hr) as [K R].
  split; [now exists e|]. split; [exact K|]. split; [exact R|].
  split; intros r w2 Hf; subst outcome; now rewrite K, Hf.
Qed.

(** A provider whose first reply is prose and whose second is an empty
    JSON object. *)
Definition prose_then_json : nat -> ChatRequest -> completion (option jsstring) :=
  fun n _ =>
    match n with
    | O => Return (Some (lit "Sorry, I cannot help with that."))
    | _ => Return (Some (lit "{}"))
    end.

Lemma malformed_primary_reply_falls_back_witness :
  fst (extractEventsWithFallback (sample_host prose_then_json) (lit "Quiz 1") w0)
  = Return {| events := []; courseName := None; instructor := None;
              semester := None; year := None |}.
Proof.
  pose proof (@malformed_primary_reply_falls_back
                (sample_host prose_then_json) (lit "Quiz 1") w0 _ _ eq_refl
                (or_introl (ex_intro _ _ eq_refl))) as K.
  cbv zeta in K. destruct K as (_ & _ & _ & K & _).
  rewrite (K _ _ eq_refl). reflexivity.
Defined.

End Fallback.

(* ================================================================= *)
(** * Further properties of the code *)

(** ** [PDFProcessor]: what [processForAI] answers, and the shape of a
    cleaned text *)

Module PDFProcessorMore.
Import JS JSFacts PDFProcessor Normalizer NormalizerIdempotence ScannedCheck.

Lemma validatePDFBuffer_iff buffer :
  validatePDFBuffer buffer = true <-> exists rest, buffer = pdf_signature ++ rest.
Proof.
  split.
  - unfold validatePDFBuffer.
    destruct buffer as [|b0 [|b1 [|b2 [|b3 rest]]]]; try discriminate.
    cbn [firstn]. rewrite !andb_true_iff. intros [[[E0 E1] E2] E3].
    apply Byte.byte_dec_bl in E0, E1, E2, E3. subst. now exists rest.
  - intros [rest ->]. reflexivity.
Qed.

Section WithPdfParse.
Variable pdfParse : Buffer -> completion PDFParseResult.

(** The four ways [processForAI] can end. *)
Lemma processForAI_cases buffer :
  (validatePDFBuffer buffer = false
   /\ processForAI pdfParse buffer = Throw InvalidFormat)
  \/ (validatePDFBuffer buffer = true
      /\ isScannedPDF pdfParse buffer = true
      /\ processForAI pdfParse buffer = Throw UnsupportedScannedDocument)
  \/ (exists result,
        validatePDFBuffer buffer = true
        /\ isScannedPDF pdfParse buffer = false
        /\ pdfParse buffer = Return result
        /\ List.length (cleanText (text result)) < 50
        /\ processForAI pdfParse buffer = Throw InsufficientContent)
  \/ (exists result,
        validatePDFBuffer buffer = true
        /\ isScannedPDF pdfParse buffer = false
        /\ pdfParse buffer = Return result
        /\ 50 <= List.length (cleanText (text result))
        /\ processForAI pdfParse buffer = Return (cleanText (text result))).
Proof.
  unfold processForAI.
  destruct (validatePDFBuffer buffer); cbn [negb]; [|now left].
  right. destruct (isScannedPDF pdfParse buffer) eqn:Es; [now left|].
  right. unfold isScannedPDF, extractText in *.
  destruct (pdfParse buffer) as [[t n]|e]; [|discriminate].
  cbn [text numpages] in *.
  destruct (List.length (cleanText t) <? 50) eqn:El.
  - left. apply Nat.ltb_lt in El. exists {| text := t; numpages := n |}.
    repeat split; auto.
  - right. apply Nat.ltb_ge in El. exists {| text := t; numpages := n |}.
    repeat split; auto.
Qed.

End WithPdfParse.

(** X1. [processForAI] answers with the invalid-format error exactly for
    the buffers that do not begin with the four bytes of [%PDF], whatever
    the PDF library would make of them. *)
Theorem invalid_format_iff_no_signature
  (pdfParse : Buffer -> completion PDFParseResult) (buffer : Buffer) :
  processForAI pdfParse buffer = Throw InvalidFormat
  <-> ~ exists rest, buffer = pdf_signature ++ rest.
Proof.
  rewrite <- validatePDFBuffer_iff.
  destruct (processForAI_cases pdfParse buffer)
    as [[Hv ->] | [(Hv & _ & ->) | [(r & Hv & _ & _ & _ & ->) | (r & Hv & _ & _ & _ & ->)]]];
    rewrite Hv; split; intros K; try discriminate K; try discriminate;
    try reflexivity; exfalso; now apply K.
Qed.

(** X2. [processForAI] never surfaces the parse failure of [extractText]:
    it ends with the invalid-format, the scanned-document or the
    too-little-text error, or returns a text. *)
Theorem processForAI_never_parse_failure
  (pdfParse : Buffer -> completion PDFParseResult) (buffer : Buffer) :
  (forall cause, processForAI pdfParse buffer <> Throw (ParseFailure cause))
  /\ (processForAI pdfParse buffer = Throw InvalidFormat
      \/ processForAI pdfParse buffer = Throw UnsupportedScannedDocument
      \/ processForAI pdfParse buffer = Throw InsufficientContent
      \/ exists cleanedText, processForAI pdfParse buffer = Return cleanedText).
Proof.
  destruct (processForAI_cases pdfParse buffer)
    as [[_ ->] | [(_ & _ & ->) | [(r & _ & _ & _ & _ & ->) | (r & _ & _ & _ & _ & ->)]]];
    (split; [intros cause; discriminate|]); eauto 6.
Qed.

(** X3. [processForAI] answers with the too-little-text error exactly when
    the buffer has the signature, is not taken for a scan, and the cleaned
    text is shorter than 50 code units. *)
Theorem insufficient_content_iff
  (pdfParse : Buffer -> completion PDFParseResult) (buffer : Buffer) :
  processForAI pdfParse buffer = Throw InsufficientContent
  <-> exists result,
        validatePDFBuffer buffer = true
        /\ pdfParse buffer = Return result
        /\ isScannedPDF pdfParse buffer = false
        /\ List.length (cleanText (text result)) < 50.
Proof.
  destruct (processForAI_cases pdfParse buffer)
    as [[Hv ->] | [(Hv & Hs & ->) | [(r & Hv & Hs & Hr & Hl & ->) | (r & Hv & Hs & Hr & Hl & ->)]]];
    split; try discriminate.
  - intros (r & Hv' & _). congruence.
  - intros (r & _ & _ & Hs' & _). congruence.
  - intros _. now exists r.
  - reflexivity.
  - intros (r' & _ & Hr' & _ & Hl'). exfalso.
    assert (E : r' = r) by congruence. subst r'.
    apply (Nat.lt_irrefl 50). eapply Nat.le_lt_trans; eassumption.
Qed.

(** A text that is long for the scanned check and short once cleaned: two
    letters with two hundred spaces between them. *)
Example long_gap_is_insufficient :
  processForAI
    (fun _ => Return {| text := lit "a" ++ repeat SP 200 ++ lit "b";
                        numpages := 1 |})
    pdf_signature
  = Throw InsufficientContent.
Proof. vm_compute. reflexivity. Qed.

(** *** Cleaned text *)

Lemma filter_nonspace_cons c t :
  filter nonspace (c :: t) =
  if is_space c then filter nonspace t else c :: filter nonspace t.
Proof. cbn. unfold nonspace. now destruct (is_space c). Qed.

Lemma filter_nonspace_collapse s :
  filter nonspace (collapse s) = filter nonspace s.
Proof.
  induction s as [|c t IH]; [reflexivity|].
  rewrite filter_nonspace_cons. cbn [collapse].
  destruct (is_space c) eqn:Ec.
  - destruct (starts_with is_space t); [exact IH|].
    now rewrite filter_nonspace_cons, is_space_SP.
  - now rewrite filter_nonspace_cons, Ec, IH.
Qed.

Lemma filter_nonspace_ff_cr s :
  filter nonspace (List.map (fun c => if is_ff_cr c then SP else c) s)
  = filter nonspace s.
Proof.
  induction s as [|c t IH]; [reflexivity|]. cbn [List.map].
  rewrite !filter_nonspace_cons, IH. unfold is_ff_cr.
  destruct (N.eqb_spec c 12) as [->|?]; [reflexivity|].
  destruct (N.eqb_spec c 13) as [->|?]; reflexivity.
Qed.

Lemma filter_nonspace_debullet s :
  filter nonspace (List.map debullet s) = List.map debullet (filter nonspace s).
Proof.
  induction s as [|c t IH]; [reflexivity|]. cbn [List.map].
  rewrite !filter_nonspace_cons, is_space_debullet, IH.
  now destruct (is_space c).
Qed.

Lemma filter_nonspace_tighten s :
  filter nonspace (tighten s) = filter nonspace s.
Proof.
  induction s as [|c t IH]; [reflexivity|].
  rewrite tighten_cons, (filter_nonspace_cons c t).
  destruct (is_space c) eqn:Ec; cbn [andb].
  - destruct (starts_with is_punct (tighten t)); [exact IH|].
    now rewrite filter_nonspace_cons, Ec.
  - now rewrite filter_nonspace_cons, Ec, IH.
Qed.

Lemma filter_nonspace_loosen s :
  filter nonspace (loosen s) = filter nonspace s.
Proof.
  induction s as [s IH] using strong_list_ind.
  destruct s as [|p [|x u]]; [reflexivity | reflexivity |].
  rewrite loosen_cons2.
  destruct (is_punct p && negb (is_space x)).
  - rewrite !(filter_nonspace_cons p), (filter_nonspace_cons SP), is_space_SP.
    rewrite !(filter_nonspace_cons x), (IH u) by (simpl; lia). reflexivity.
  - rewrite !(filter_nonspace_cons p), (IH (x :: u)) by (simpl; lia).
    reflexivity.
Qed.

Lemma filter_nonspace_trimStart s :
  filter nonspace (trimStart s) = filter nonspace s.
Proof.
  induction s as [|c t IH]; [reflexivity|]. cbn [trimStart].
  rewrite (filter_nonspace_cons c t).
  destruct (is_space c) eqn:Ec; [exact IH|].
  now rewrite filter_nonspace_cons, Ec.
Qed.

Lemma filter_nonspace_trimEnd s :
  filter nonspace (trimEnd s) = filter nonspace s.
Proof.
  induction s as [|c t IH]; [reflexivity|].
  rewrite trimEnd_cons, (filter_nonspace_cons c t), <- IH.
  destruct (trimEnd t) as [|d r].
  - destruct (is_space c) eqn:Ec; [reflexivity|].
    now rewrite filter_nonspace_cons, Ec.
  - now rewrite (filter_nonspace_cons c).
Qed.

(** X4. Cleaning touches white space and bullets only: the characters of
    the cleaned text that are not white space are those of the input, in
    the same order, each bullet glyph replaced by a hyphen. *)
Theorem cleanText_keeps_characters (s : jsstring) :
  filter nonspace (cleanText s) = List.map debullet (filter nonspace s).
Proof.
  rewrite cleanText_passes. unfold trim.
  rewrite filter_nonspace_trimEnd, filter_nonspace_trimStart.
  rewrite filter_nonspace_loosen, filter_nonspace_tighten.
  rewrite filter_nonspace_debullet, filter_nonspace_ff_cr.
  now rewrite filter_nonspace_collapse.
Qed.

Lemma trimEnd_last s u c : trimEnd s = u ++ [c] -> is_space c = false.
Proof.
  revert u; induction s as [|d t IH]; intros u.
  - destruct u; discriminate.
  - rewrite trimEnd_cons. destruct (trimEnd t) as [|e r] eqn:E.
    + destruct (is_space d) eqn:Ed.
      * destruct u; discriminate.
      * destruct u as [|? [|? ?]]; try discriminate.
        intros K. now inversion K; subst.
    + destruct u as [|d' u'].
      * discriminate.
      * intros K. inversion K; subst. now apply (IH u').
Qed.

Lemma trimStart_first s : starts_with is_space (trimStart s) = false.
Proof.
  induction s as [|c t IH]; [reflexivity|]. cbn [trimStart].
  destruct (is_space c) eqn:Ec; [exact IH|]. exact Ec.
Qed.

(** X5. A cleaned text has no white space at either end, no white space
    other than the plain space, no two spaces in a row, and no bullet
    glyph. *)
Theorem cleanText_shape (s : jsstring) :
  let t := cleanText s in
  starts_with is_space t = false
  /\ (forall u c, t = u ++ [c] -> is_space c = false)
  /\ Forall (fun c => is_space c = true -> c = SP) t
  /\ Forall (fun c => is_bullet c = false) t
  /\ (forall u a b v, t = u ++ a :: b :: v ->
                      is_space a = true -> is_space b = false).
Proof.
  cbv zeta. destruct (cleanText_plain s) as [Hp Hs].
  split; [|split; [|split; [|split]]].
  - rewrite cleanText_passes. unfold trim.
    destruct (trimEnd _) as [|c r] eqn:E; [reflexivity|].
    destruct (trimEnd_head _ E) as [t Ht].
    match type of Ht with trimStart ?x = _ =>
      pose proof (trimStart_first x) as K end.
    rewrite Ht in K. exact K.
  - intros u c E. rewrite cleanText_passes in E. unfold trim in E.
    now apply trimEnd_last in E.
  - rewrite forallb_forall in Hp. apply Forall_forall. intros c Hin Hc.
    specialize (Hp c Hin). unfold plain in Hp. rewrite Hc in Hp.
    apply andb_true_iff in Hp as [Hp _]. now apply N.eqb_eq.
  - rewrite forallb_forall in Hp. apply Forall_forall. intros c Hin.
    specialize (Hp c Hin). unfold plain in Hp.
    apply andb_true_iff in Hp as [_ Hp]. now apply negb_true_iff.
  - generalize dependent (cleanText s). intros t _ Hs u a b v ->.
    induction u as [|d u IH].
    + cbn in Hs. apply andb_true_iff in Hs as [Hs _].
      apply negb_true_iff in Hs. intros Ha. rewrite Ha in Hs. exact Hs.
    + apply IH. cbn [app single_spaced] in Hs.
      now apply andb_true_iff in Hs as [_ Hs].
Qed.

(** X6. The cleaned text is empty exactly when the input is white space
    only (or empty). *)
Theorem cleanText_empty_iff (s : jsstring) :
  cleanText s = [] <-> forallb is_space s = true.
Proof.
  assert (A : forall t, filter nonspace t = [] <-> forallb is_space t = true).
  { induction t as [|c t IH]; [easy|]. cbn. unfold nonspace.
    destruct (is_space c); cbn; [exact IH | easy]. }
  pose proof (cleanText_keeps_characters s) as K. split.
  - intros E. rewrite E in K. cbn in K. apply A.
    destruct (filter nonspace s); [reflexivity | discriminate].
  - intros Hs. apply A in Hs. rewrite Hs in K. cbn in K.
    pose proof (proj1 (cleanText_shape s)) as F. cbv zeta in F.
    destruct (cleanText s) as [|c t]; [reflexivity|].
    cbn in F, K. unfold nonspace in K. rewrite F in K. discriminate.
Qed.

Lemma cleanText_twice (s : jsstring) : cleanText (cleanText s) = cleanText s.
Proof.
  destruct (cleanText_plain s) as [Hp Hs].
  rewrite (cleanText_passes (cleanText s)), (early_passes_fixed _ Hp Hs).
  rewrite cleanText_passes.
  rewrite <- trim_tighten, <- trim_loosen.
  rewrite (loosen_tighten_loosen _ (tighten_tight _)).
  apply trim_idem.
Qed.

(** X7. A text that [processForAI] returns is the cleaned text of the
    document: at least 50 code units long and unchanged by another
    cleaning. *)
Theorem processForAI_returns_cleaned
  (pdfParse : Buffer -> completion PDFParseResult)
  (buffer : Buffer) (cleanedText : jsstring) :
  processForAI pdfParse buffer = Return cleanedText ->
  (exists result, pdfParse buffer = Return result
                  /\ cleanedText = cleanText (text result))
  /\ 50 <= List.length cleanedText
  /\ cleanText cleanedText = cleanedText
  /\ exists rest, buffer = pdf_signature ++ rest.
Proof.
  intros Hr.
  destruct (processForAI_cases pdfParse buffer)
    as [[Hv E] | [(Hv & _ & E) | [(r & Hv & _ & _ & _ & E) | (r & Hv & _ & Hp & Hl & E)]]];
    rewrite E in Hr; try discriminate.
  inversion Hr; subst. split; [now exists r|]. split; [exact Hl|].
  split; [apply cleanText_twice | now apply validatePDFBuffer_iff].
Qed.

Definition sample_text : jsstring :=
  lit "CS 101 syllabus.  Homework 1 is due on 2024-09-15 ; the midterm exam is on 2024-10-20 in room 12 , and the final project is due on 2024-12-01.".

Lemma processForAI_returns_cleaned_witness :
  50 <= List.length
          (cleanText sample_text)
  /\ cleanText (cleanText sample_text) = cleanText sample_text.
Proof.
  pose proof (@processForAI_returns_cleaned
                (fun _ => Return {| text := sample_text; numpages := 1 |})
                pdf_signature (cleanText sample_text) eq_refl) as K.
  destruct K as (_ & Hl & Hc & _). split; assumption.
Defined.

End PDFProcessorMore.

(** ** The validator: what it rejects and what a result looks like *)

Module ValidatorMore.
Import JS JSFacts Json SyllabusProcessor Validator.

Section WithHost.
Variable H : Host.

(** The items of an array, converted and joined. *)
Definition join_items (l : list (json (number H))) : completion jsstring :=
  ToString_json H (JArr l).

Lemma join_items_cons x t :
  join_items (x :: t) =
  match (match x with JNull => Return [] | _ => ToString_json H x end) with
  | Throw err => Throw err
  | Return s =>
      match t with
      | [] => Return s
      | _ :: _ =>
          match join_items t with
          | Throw err => Throw err
          | Return r => Return (s ++ lit "," ++ r)
          end
      end
  end.
Proof. reflexivity. Qed.

(** The only thing [String] throws is the [TypeError]. *)
Lemma ToString_json_throw : forall (v : json (number H)) e,
  ToString_json H v = Throw e -> e = TypeError.
Proof.
  fix IH 1. intros v e. destruct v as [| b | n | s | items | members];
    try discriminate.
  - change (ToString_json H (JArr items)) with (join_items items).
    revert items e. fix IHl 1. intros items e.
    destruct items as [|x t]; [discriminate|].
    rewrite join_items_cons.
    destruct (match x with JNull => Return [] | _ => ToString_json H x end)
      as [sx|ex] eqn:Ex.
    + intros K. apply (IHl t).
      destruct t as [|y t']; [discriminate|].
      destruct (join_items (y :: t')); [discriminate | exact K].
    + intros K. inversion K; subst. apply (IH x).
      destruct x; try discriminate; exact Ex.
  - cbn [ToString_json].
    destruct (has_own members (lit "toString")); [|discriminate].
    intros K. now inversion K.
Qed.

Lemma ToString_throw v e : ToString H v = Throw e -> e = TypeError.
Proof. destruct v as [j|]; [apply ToString_json_throw | discriminate]. Qed.

Lemma ToNumber_throw v e : ToNumber H v = Throw e -> e = TypeError.
Proof.
  unfold ToNumber. destruct v as [[| | | | |]|]; try discriminate;
    destruct (ToString_json H _) eqn:E; try discriminate;
    intros K; inversion K; subst; now apply (ToString_json_throw _ E).
Qed.

Lemma converts_false v :
  converts H v = false -> ToString H v = Throw TypeError.
Proof.
  unfold converts. destruct (ToString H v) eqn:E; [discriminate|].
  intros _. now rewrite (ToString_throw _ E).
Qed.

Lemma trimmed_if_truthy_throw v w :
  negb (ToBoolean H v) || converts H v = false ->
  trimmed_if_truthy H v w = (Throw TypeError, w).
Proof.
  unfold trimmed_if_truthy. destruct (ToBoolean H v); [|discriminate].
  cbn [negb orb]. intros Hc. rewrite bind_run. unfold lift.
  now rewrite (converts_false _ Hc).
Qed.

(** A valid candidate is either cleaned, or one of its conversions throws
    the [TypeError]; an id is drawn in both cases. *)
Lemma cleanEvent_outcome (event : json (number H)) w :
  isValidEvent H event = true ->
  cleanEvent H event w
  = (if stringifiable H event then Return (cleaned H (ids_drawn w) event)
     else Throw TypeError,
     drew 1 w).
Proof.
  intros Hv. destruct (stringifiable H event) eqn:Hs;
    [now apply cleanEvent_run|].
  pose proof Hv as Hv'.
  apply isValidEvent_valid in Hv' as (title & date & Et & Hn & Ed & Hsh & Hd).
  unfold stringifiable in Hs.
  unfold cleanEvent.
  rewrite bind_run. cbn [generateEventId].
  rewrite bind_run. unfold lift at 1. rewrite Et. cbn [ToString ToString_json].
  rewrite bind_run. unfold lift at 1.
  destruct (converts H (or_empty H (get (Some event) (lit "description")))) eqn:C1;
    [rewrite (converts_text _ _ C1) | now rewrite (converts_false _ C1)].
  rewrite bind_run. unfold lift at 1. rewrite Ed. cbn [string_of].
  unfold validateDate, isValidDateFormat.
  apply dateRegex_test_shape in Hsh. rewrite Hsh, Hd. cbn [negb].
  rewrite bind_run.
  destruct (negb (ToBoolean H (get (Some event) (lit "time")))
            || converts H (get (Some event) (lit "time"))) eqn:C2;
    [rewrite (trimmed_if_truthy_run _ _ _ C2)
    | now rewrite (trimmed_if_truthy_throw _ _ C2)].
  rewrite bind_run. unfold lift at 1. unfold validateEventType.
  destruct (converts H (get (Some event) (lit "type"))) eqn:C3;
    [rewrite (converts_text _ _ C3) | now rewrite (converts_false _ C3)].
  rewrite bind_run. unfold lift at 1. unfold validatePriority.
  destruct (converts H (get (Some event) (lit "priority"))) eqn:C4;
    [rewrite (converts_text _ _ C4) | now rewrite (converts_false _ C4)].
  rewrite bind_run.
  destruct (negb (ToBoolean H (get (Some event) (lit "location")))
            || converts H (get (Some event) (lit "location"))) eqn:C5;
    [|now rewrite (trimmed_if_truthy_throw _ _ C5)].
  cbn in Hs. discriminate.
Qed.

(** The loop over the candidates either cleans every valid one, or stops
    with the [TypeError] at the first valid one that does not convert. *)
Lemma cleanEvents_outcome (candidates : list (json (number H))) w :
  exists n,
    n <= List.length (filter (isValidEvent H) candidates)
    /\ (cleanEvents H candidates w
        = (Return (cleaned_from H (ids_drawn w)
                     (filter (isValidEvent H) candidates)),
           drew (List.length (filter (isValidEvent H) candidates)) w)
        /\ forallb (stringifiable H) (filter (isValidEvent H) candidates) = true
        \/ cleanEvents H candidates w = (Throw TypeError, drew n w)
           /\ forallb (stringifiable H) (filter (isValidEvent H) candidates)
              = false).
Proof.
  revert w; induction candidates as [|event rest IH]; intros w.
  - exists 0. split; [auto|]. left. destruct w. now split.
  - cbn [cleanEvents filter].
    destruct (isValidEvent H event) eqn:Ev; [|apply IH].
    rewrite bind_run, (cleanEvent_outcome _ w Ev). cbn [forallb List.length].
    destruct (stringifiable H event) eqn:Hs.
    + destruct (IH (drew 1 w)) as (n & Hn & [[E F] | [E F]]).
      * exists (S n). split; [lia|]. left. split; [|exact F].
        rewrite bind_run, E. cbn [ret cleaned_from].
        rewrite drew_drew, Nat.add_1_r. reflexivity.
      * exists (S n). split; [lia|]. right. split; [|exact F].
        rewrite bind_run, E, drew_drew, Nat.add_1_r. reflexivity.
    + exists 1. split; [lia|]. right. now split.
Qed.

(** The candidates the validator looks at: the items of [result.events]
    when that is an array. *)
Definition candidates_of (result : json (number H)) : list (json (number H)) :=
  match get (Some result) (lit "events") with
  | Some (JArr candidates) => candidates
  | _ => []
  end.

Definition is_object (result : json (number H)) : bool :=
  match result with
  | JArr _ | JObj _ => true
  | _ => false
  end.

Lemma year_outcome v w :
  (exists y,
     (if ToBoolean H v
      then bind (lift (ToNumber H v)) (fun n => ret (Some n))
      else ret None) w = (Return y, w)
     /\ negb (ToBoolean H v) || converts H v = true)
  \/ ((if ToBoolean H v
       then bind (lift (ToNumber H v)) (fun n => ret (Some n))
       else ret None) w = (Throw TypeError, w)
      /\ negb (ToBoolean H v) || converts H v = false).
Proof.
  destruct (negb (ToBoolean H v) || converts H v) eqn:C.
  - left. destruct (year_run H v w C) as [y Hy]. now exists y.
  - right. split; [|reflexivity].
    destruct (ToBoolean H v); [|discriminate]. cbn [negb orb] in C.
    rewrite bind_run. unfold lift.
    pose proof (converts_false _ C) as K.
    destruct (ToNumber H v) as [n|e] eqn:En.
    + exfalso. unfold ToNumber, ToString in *.
      destruct v as [[| | | | |]|]; try discriminate;
        rewrite K in En; discriminate.
    + now rewrite (ToNumber_throw _ En).
Qed.

(** An array or object either yields a result with the cleaned valid
    candidates, or the [TypeError] of a conversion. *)
Lemma validateAndCleanResult_outcome (result : json (number H)) w :
  is_object result = true ->
  let valid := filter (isValidEvent H) (candidates_of result) in
  (exists r,
      validateAndCleanResult H result w = (Return r, drew (List.length valid) w)
      /\ events r = cleaned_from H (ids_drawn w) valid
      /\ forallb (stringifiable H) valid = true)
  \/ (exists n,
        n <= List.length valid
        /\ validateAndCleanResult H result w = (Throw TypeError, drew n w)).
Proof.
  intros Ho valid. unfold validateAndCleanResult.
  assert (G : negb (ToBoolean H (Some result)) || negb (typeof_object (Some result))
              = false) by (destruct result; try discriminate; reflexivity).
  rewrite G. rewrite bind_run.
  assert (E : match get (Some result) (lit "events") with
              | Some (JArr candidates) => cleanEvents H candidates
              | _ => ret []
              end w = cleanEvents H (candidates_of result) w).
  { unfold candidates_of.
    destruct (get (Some result) (lit "events")) as [[| | | | |]|]; reflexivity. }
  rewrite E. clear E.
  destruct (cleanEvents_outcome (candidates_of result) w)
    as (n & Hn & [[E F] | [E F]]); rewrite E; fold valid;
    [|right; now exists n].
  set (w1 := drew (List.length valid) w).
  rewrite bind_run.
  destruct (negb (ToBoolean H (get (Some result) (lit "courseName")))
            || converts H (get (Some result) (lit "courseName"))) eqn:C1;
    [rewrite (trimmed_if_truthy_run _ _ _ C1)
    | rewrite (trimmed_if_truthy_throw _ _ C1); right; now exists (List.length valid)].
  rewrite bind_run.
  destruct (negb (ToBoolean H (get (Some result) (lit "instructor")))
            || converts H (get (Some result) (lit "instructor"))) eqn:C2;
    [rewrite (trimmed_if_truthy_run _ _ _ C2)
    | rewrite (trimmed_if_truthy_throw _ _ C2); right; now exists (List.length valid)].
  rewrite bind_run.
  destruct (negb (ToBoolean H (get (Some result) (lit "semester")))
            || converts H (get (Some result) (lit "semester"))) eqn:C3;
    [rewrite (trimmed_if_truthy_run _ _ _ C3)
    | rewrite (trimmed_if_truthy_throw _ _ C3); right; now exists (List.length valid)].
  rewrite bind_run.
  destruct (year_outcome (get (Some result) (lit "year")) w1)
    as [(y & -> & _) | [-> _]].
  - left. eexists. split; [reflexivity|]. split; [reflexivity | exact F].
  - right. now exists (List.length valid).
Qed.

Lemma validateAndCleanResult_non_object (result : json (number H)) w :
  is_object result = false ->
  validateAndCleanResult H result w = (Throw InvalidResult, w).
Proof.
  intros Ho. unfold validateAndCleanResult.
  destruct result; try discriminate Ho;
    cbn [ToBoolean typeof_object negb]; rewrite ?orb_true_r; reflexivity.
Qed.

Lemma validateAndCleanResult_throws (result : json (number H)) w e :
  fst (validateAndCleanResult H result w) = Throw e ->
  e = InvalidResult \/ e = TypeError.
Proof.
  destruct (is_object result) eqn:Ho.
  - destruct (validateAndCleanResult_outcome result w Ho)
      as [(r & E & _) | (n & _ & E)]; rewrite E; cbn [fst];
      intros K; inversion K; auto.
  - rewrite (validateAndCleanResult_non_object result w Ho). cbn [fst].
    intros K. inversion K. auto.
Qed.

End WithHost.

(** X8. The validator throws the invalid-result error exactly for a parsed
    value that is neither an object nor an array ([null], a boolean, a
    number, a string), and then draws no id; whatever else it throws is the
    [TypeError] of a failed conversion. *)
Theorem validator_errors (H : Host) (result : json (number H)) (w : world) :
  (is_object H result = false ->
   validateAndCleanResult H result w = (Throw InvalidResult, w))
  /\ (is_object H result = true ->
      fst (validateAndCleanResult H result w) <> Throw InvalidResult)
  /\ (forall e, fst (validateAndCleanResult H result w) = Throw e ->
                e = InvalidResult \/ e = TypeError).
Proof.
  split; [apply validateAndCleanResult_non_object|].
  split; [|apply validateAndCleanResult_throws].
  intros Ho.
  destruct (validateAndCleanResult_outcome H result w Ho)
    as [(r & E & _) | (n & _ & E)]; rewrite E; discriminate.
Qed.

Lemma validator_errors_witness :
  validateAndCleanResult H0 (JStr (lit "not an object")) w0
  = (Throw InvalidResult, w0)
  /\ fst (validateAndCleanResult H0 example_reply w0) <> Throw InvalidResult.
Proof.
  split.
  - exact (proj1 (validator_errors H0 (JStr (lit "not an object")) w0) eq_refl).
  - exact (proj1 (proj2 (validator_errors H0 example_reply w0)) eq_refl).
Defined.

(** What every event of a result satisfies. *)
Definition well_formed (H : Host) (ev : SyllabusEvent (number H)) : Prop :=
  id ev <> None
  /\ title ev <> [] /\ trim (title ev) = title ev
  /\ trim (description ev) = description ev
  /\ iso_date_shape (date ev) /\ Date_isValid H (date ev) = true
  /\ (forall t, time ev = Some t -> trim t = t)
  /\ In (type ev) validTypes
  /\ In (priority ev) validPriorities
  /\ course ev = None
  /\ (forall l, location ev = Some l -> trim l = l)
  /\ duration ev = None.

Lemma carried_trimmed (H : Host) v t :
  carried H v = Some t -> trim t = t.
Proof.
  unfold carried. destruct (ToBoolean H v); [|discriminate].
  intros K. inversion K. apply trim_idem.
Qed.

Lemma cleaned_well_formed (H : Host) n (event : json (number H)) :
  isValidEvent H event = true -> well_formed H (cleaned H n event).
Proof.
  intros Hv.
  apply isValidEvent_valid in Hv as (t & d & Et & Hn & Ed & Hsh & Hd).
  unfold well_formed, cleaned.
  cbn [id title description date time type priority course location duration].
  rewrite Et, Ed. cbn [string_of].
  repeat split; auto using trim_idem; try discriminate.
  - apply carried_trimmed.
  - apply coerce_spec. cbn. tauto.
  - apply coerce_spec. cbn. tauto.
  - apply carried_trimmed.
Qed.

Lemma cleaned_from_well_formed (H : Host) n (l : list (json (number H))) :
  Forall (fun event => isValidEvent H event = true) l ->
  Forall (well_formed H) (cleaned_from H n l).
Proof.
  revert n; induction l as [|event rest IH]; intros n Hl; [constructor|].
  inversion Hl; subst. cbn [cleaned_from]. constructor; auto.
  now apply cleaned_well_formed.
Qed.

Lemma filter_Forall {A} (f : A -> bool) l : Forall (fun x => f x = true) (filter f l).
Proof. apply Forall_forall. intros x Hx. now apply filter_In in Hx. Qed.

Lemma returned_events_well_formed
  (H : Host) (result : json (number H)) (w w' : world)
  (r : ProcessedSyllabus (number H)) :
  validateAndCleanResult H result w = (Return r, w') ->
  Forall (well_formed H) (events r).
Proof.
  intros Hr.
  destruct (is_object H result) eqn:Ho.
  - destruct (validateAndCleanResult_outcome H result w Ho)
      as [(r' & E & Hev & _) | (n & _ & E)]; rewrite E in Hr; [|discriminate].
    inversion Hr; subst. rewrite Hev.
    apply cleaned_from_well_formed, filter_Forall.
  - rewrite (validateAndCleanResult_non_object H result w Ho) in Hr.
    discriminate Hr.
Qed.

(** X9. Every event of a result the validator returns has an id, a
    trimmed title that is not empty, a trimmed description, a date of the
    shape YYYY-MM-DD that parses, a type and a priority from the closed
    sets, trimmed [time] and [location] where present, and neither [course]
    nor [duration]. *)
Theorem result_events_well_formed
  (H : Host) (result : json (number H)) (w w' : world)
  (r : ProcessedSyllabus (number H)) :
  validateAndCleanResult H result w = (Return r, w') ->
  Forall (well_formed H) (events r).
Proof. apply returned_events_well_formed. Qed.

Lemma result_events_well_formed_witness :
  exists r, fst (validateAndCleanResult H0 example_reply w0) = Return r
            /\ Forall (well_formed H0) (events r).
Proof.
  eexists. split; [reflexivity|].
  exact (@result_events_well_formed H0 example_reply w0 _ _ eq_refl).
Defined.

Lemma cleaned_from_length (H : Host) (l : list (json (number H))) n :
  List.length (cleaned_from H n l) = List.length l.
Proof. revert n; induction l; intros; cbn; auto. Qed.

Lemma cleaned_from_ids (H : Host) (l : list (json (number H))) n :
  List.map (@id (number H)) (cleaned_from H n l)
  = List.map (fun k => Some (event_id H k)) (seq n (List.length l)).
Proof.
  revert n; induction l as [|c l IH]; intros n; [reflexivity|].
  cbn. f_equal. apply IH.
Qed.

(** X10. One id is drawn per event of the result, in order: the ids of the
    events are the next draws of the id source, and the validator sends no
    request. *)
Theorem result_ids_in_order
  (H : Host) (result : json (number H)) (w w' : world)
  (r : ProcessedSyllabus (number H)) :
  validateAndCleanResult H result w = (Return r, w') ->
  List.map (@id (number H)) (events r)
  = List.map (fun n => Some (event_id H n))
      (seq (ids_drawn w) (List.length (events r)))
  /\ ids_drawn w' = List.length (events r) + ids_drawn w
  /\ requests w' = requests w.
Proof.
  intros Hr.
  destruct (is_object H result) eqn:Ho.
  - destruct (validateAndCleanResult_outcome H result w Ho)
      as [(r' & E & Hev & _) | (n & _ & E)]; rewrite E in Hr; [|discriminate].
    inversion Hr; subst. rewrite Hev, cleaned_from_length.
    split; [apply cleaned_from_ids | split; reflexivity].
  - rewrite (validateAndCleanResult_non_object H result w Ho) in Hr.
    discriminate Hr.
Qed.

Lemma result_ids_in_order_witness :
  exists r, fst (validateAndCleanResult H0 example_reply w0) = Return r
            /\ List.map (@id Z) (events r) = [Some (lit "event-0")].
Proof.
  eexists. split; [reflexivity|].
  exact (proj1 (@result_ids_in_order H0 example_reply w0 _ _ eq_refl)).
Defined.



End ValidatorMore.

(** ** The model calls: requests sent and errors surfaced *)

Module FallbackMore.
Import JS Json SyllabusProcessor Validator ValidatorMore Fallback.

Section WithHost.
Variable H : Host.

(** The primary attempt, case by case. *)
Lemma extractEvents_outcome text w :
  let w1 := sent (primary_request text) w in
  extractEvents H text w =
  match chat_completions_create H (List.length (requests w)) (primary_request text) with
  | Throw cause => (Throw (ProcessingFailed cause), w1)
  | Return None | Return (Some []) => (Throw (ProcessingFailed NoResponse), w1)
  | Return (Some (c :: content)) =>
      match JSON_parse H (c :: content) with
      | Throw _ => (Throw (ProcessingFailed InvalidJSON), w1)
      | Return parsedResult =>
          match validateAndCleanResult H parsedResult w1 with
          | (Return r, w2) => (Return r, w2)
          | (Throw e, w2) => (Throw (ProcessingFailed e), w2)
          end
      end
  end.
Proof.
  cbv zeta. unfold extractEvents, try_catch at 1.
  rewrite bind_run. cbn [create]. fold (primary_request text).
  fold (sent (primary_request text) w).
  destruct (chat_completions_create H _ _) as [[[|c content]|]|cause];
    try reflexivity.
  rewrite bind_run. cbn [require_content ret].
  rewrite bind_run. unfold try_catch, lift.
  destruct (JSON_parse H (c :: content)); [|reflexivity].
  now destruct (validateAndCleanResult H a _) as [[r|e] w2].
Qed.

Lemma fallbackAttempt_outcome text w :
  let w1 := sent (fallback_request text) w in
  fallbackAttempt H text w =
  match chat_completions_create H (List.length (requests w)) (fallback_request text) with
  | Throw cause => (Throw cause, w1)
  | Return None | Return (Some []) => (Throw NoResponse, w1)
  | Return (Some (c :: content)) =>
      match JSON_parse H (c :: content) with
      | Throw e => (Throw e, w1)
      | Return parsedResult => validateAndCleanResult H parsedResult w1
      end
  end.
Proof.
  cbv zeta. unfold fallbackAttempt.
  rewrite bind_run. cbn [create]. fold (fallback_request text).
  fold (sent (fallback_request text) w).
  destruct (chat_completions_create H _ _) as [[[|c content]|]|cause];
    reflexivity.
Qed.

End WithHost.

(** X12. The primary attempt sends exactly one request, to [gpt-4] with
    the prompt built from the text, whether it succeeds or fails; and every
    error it throws is a processing failure that carries the message of its
    cause: the provider's throw, the no-response error for a missing or
    empty content, the invalid-JSON error for a content that does not
    parse, or the validator's error. *)
Theorem primary_attempt_one_request_wrapped_errors
  (H : Host) (text : jsstring) (w : world) :
  requests (snd (extractEvents H text w)) = requests w ++ [primary_request text]
  /\ model (primary_request text) = lit "gpt-4"
  /\ In (lit "user", createExtractionPrompt text) (messages (primary_request text))
  /\ (forall e, fst (extractEvents H text w) = Throw e ->
        exists cause,
          e = ProcessingFailed cause
          /\ (chat_completions_create H (List.length (requests w))
                (primary_request text) = Throw cause
              \/ cause = NoResponse \/ cause = InvalidJSON
              \/ cause = InvalidResult \/ cause = TypeError)).
Proof.
  split; [apply extractEvents_requests|]. split; [reflexivity|].
  split; [cbn; tauto|].
  intros e. rewrite extractEvents_outcome. cbv zeta.
  destruct (chat_completions_create H _ _) as [[[|c content]|]|cause] eqn:Ec;
    cbn [fst]; intros K; try (inversion K; subst; eauto 7; fail).
  destruct (JSON_parse H (c :: content)) as [v|pe];
    [|inversion K; subst; eauto 7].
  destruct (validateAndCleanResult H v _) as [[r|e'] w2] eqn:Ev;
    [discriminate|]. inversion K; subst.
  exists e'. split; [reflexivity|].
  pose proof (@validateAndCleanResult_throws H v
                (sent (primary_request text) w) e') as V.
  rewrite Ev in V. destruct (V eq_refl) as [-> | ->]; auto 6.
Qed.

Lemma fallback_throws (H : Host) (text : jsstring) (w : world) (e : thrown) :
  fst (extractEventsWithFallback H text w) = Throw e -> e = ExtractionFailed.
Proof.
  rewrite extractEventsWithFallback_run.
  destruct (extractEvents H text w) as [[r|e1] w1]; [discriminate|].
  unfold after_fallback.
  destruct (fallbackAttempt H text w1) as [[r|e2] w2]; [discriminate|].
  intros K. now inversion K.
Qed.

Lemma primary_attempt_one_request_wrapped_errors_witness :
  fst (extractEvents H0 (lit "Quiz 1") w0)
  = Throw (ProcessingFailed (ErrorObject (lit "Connection error.")))
  /\ List.map model (requests (snd (extractEvents H0 (lit "Quiz 1") w0)))
     = [lit "gpt-4"].
Proof.
  split; [reflexivity|].
  rewrite (proj1 (primary_attempt_one_request_wrapped_errors H0 (lit "Quiz 1") w0)).
  reflexivity.
Defined.

(** X13. Whatever goes wrong, the only error [extractEventsWithFallback]
    lets out is the fixed extraction-failed error. *)
Theorem fallback_only_error_is_extraction_failed
  (H : Host) (text : jsstring) (w : world) (e : thrown) :
  fst (extractEventsWithFallback H text w) = Throw e -> e = ExtractionFailed.
Proof. apply fallback_throws. Qed.

Lemma fallback_only_error_is_extraction_failed_witness :
  fst (extractEventsWithFallback H0 (lit "Quiz 1") w0) = Throw ExtractionFailed.
Proof.
  assert (K : exists e, fst (extractEventsWithFallback H0 (lit "Quiz 1") w0) = Throw e)
    by (eexists; reflexivity).
  destruct K as [e He].
  rewrite He. f_equal.
  exact (@fallback_only_error_is_extraction_failed H0 (lit "Quiz 1") w0 e He).
Defined.

(** X14. When the primary attempt succeeds its result is returned and no
    second request is sent; in every case the primary request comes first
    and at most one more follows. *)
Theorem fallback_request_only_after_failure
  (H : Host) (text : jsstring) (w : world) :
  let outcome := extractEventsWithFallback H text w in
  (forall r w1, extractEvents H text w = (Return r, w1) ->
                outcome = (Return r, w1)
                /\ requests w1 = requests w ++ [primary_request text])
  /\ (requests (snd outcome) = requests w ++ [primary_request text]
      \/ requests (snd outcome)
         = requests w ++ [primary_request text; fallback_request text])
  /\ (requests (snd outcome)
      = requests w ++ [primary_request text; fallback_request text]
      <-> exists e w1, extractEvents H text w = (Throw e, w1)).
Proof.
  cbv zeta. pose proof (extractEvents_requests H text w) as R.
  rewrite extractEventsWithFallback_run.
  destruct (extractEvents H text w) as [[r|e] w1] eqn:E; cbn [snd] in *.
  - split; [|split].
    + intros r' w1' K. inversion K; subst. now split.
    + now left.
    + split; [|intros (e & w2 & K); discriminate].
      rewrite R. intros K. apply app_inv_head in K. discriminate.
  - rewrite after_fallback_requests, fallbackAttempt_requests, R, <- app_assoc.
    split; [intros r w2 K; discriminate|]. split; [now right|].
    split; eauto.
Qed.

Definition always_empty_object : nat -> ChatRequest -> completion (option jsstring) :=
  fun _ _ => Return (Some (lit "{}")).

Lemma fallback_request_only_after_failure_witness :
  List.map model
    (requests (snd (extractEventsWithFallback (sample_host always_empty_object)
                      (lit "Quiz 1") w0)))
  = [lit "gpt-4"].
Proof.
  destruct (proj1 (fallback_request_only_after_failure
                     (sample_host always_empty_object) (lit "Quiz 1") w0)
                  _ _ eq_refl) as [E _].
  rewrite E. reflexivity.
Defined.

Lemma pipeline_returns_well_formed
  (H : Host) (text : jsstring) (w w' : world)
  (r : ProcessedSyllabus (number H)) :
  extractEventsWithFallback H text w = (Return r, w') ->
  Forall (well_formed H) (events r).
Proof.
  rewrite extractEventsWithFallback_run.
  assert (P : forall w1 w2,
             (match chat_completions_create H (List.length (requests w))
                      (primary_request text) with
              | Throw cause => (Throw (ProcessingFailed cause), w1)
              | Return None | Return (Some []) =>
                  (Throw (ProcessingFailed NoResponse), w1)
              | Return (Some (c :: content)) =>
                  match JSON_parse H (c :: content) with
                  | Throw _ => (Throw (ProcessingFailed InvalidJSON), w1)
                  | Return parsedResult =>
                      match validateAndCleanResult H parsedResult w1 with
                      | (Return r0, w3) => (Return r0, w3)
                      | (Throw e, w3) => (Throw (ProcessingFailed e), w3)
                      end
                  end
              end) = (Return r, w2) ->
             Forall (well_formed H) (events r)).
  { intros w1 w2.
    destruct (chat_completions_create H _ _) as [[[|c content]|]|cause];
      try discriminate.
    destruct (JSON_parse H (c :: content)) as [v|pe]; [|discriminate].
    destruct (validateAndCleanResult H v w1) as [[r0|e] w3] eqn:Ev;
      [|discriminate].
    intros K. inversion K; subst. now apply returned_events_well_formed in Ev. }
  destruct (extractEvents H text w) as [[r1|e1] w1] eqn:E1.
  - rewrite extractEvents_outcome in E1. cbv zeta in E1.
    intros K. inversion K; subst. now apply P in E1.
  - unfold after_fallback. rewrite fallbackAttempt_outcome. cbv zeta.
    destruct (chat_completions_create H _ (fallback_request text))
      as [[[|c content]|]|cause]; try discriminate.
    destruct (JSON_parse H (c :: content)) as [v|pe]; [|discriminate].
    destruct (validateAndCleanResult H v _) as [[r0|e] w3] eqn:Ev;
      [|discriminate].
    intros K. inversion K; subst. now apply returned_events_well_formed in Ev.
Qed.

(** X15. Whichever model produced it, a result that
    [extractEventsWithFallback] returns has only well-formed events: each
    with an id, a trimmed non-empty title, a date of the shape YYYY-MM-DD
    that parses, and a type and a priority from the closed sets. *)
Theorem pipeline_events_well_formed
  (H : Host) (text : jsstring) (w w' : world)
  (r : ProcessedSyllabus (number H)) :
  extractEventsWithFallback H text w = (Return r, w') ->
  Forall (well_formed H) (events r).
Proof. apply pipeline_returns_well_formed. Qed.

Lemma pipeline_events_well_formed_witness :
  exists r,
    fst (extractEventsWithFallback (sample_host prose_then_json) (lit "Quiz 1") w0)
    = Return r
    /\ Forall (well_formed (sample_host prose_then_json)) (events r).
Proof.
  eexists. split; [reflexivity|].
  exact (@pipeline_events_well_formed (sample_host prose_then_json)
           (lit "Quiz 1") w0 _ _ eq_refl).
Defined.

End FallbackMore.

(* ================================================================= *)
(** ** [EventEditor] ([src/components/EventEditor.tsx]) and the event list
    of the page ([src/app/page.tsx]) *)

Module EventEditor.
Import JS Json.

(** [EventEditFormData] of [src/types/syllabus.ts]; [location] is optional
    there ([None]: the key is absent). *)
Record EventEditFormData := {
  title : jsstring;
  description : jsstring;
  date : jsstring;
  time : jsstring;
  type : jsstring;
  priority : jsstring;
  location : option jsstring
}.

(** The error object of the form: [validateForm] sets no key other than
    these three. *)
Record FormErrors := {
  title_error : option jsstring;
  date_error : option jsstring;
  time_error : option jsstring
}.

Definition in_range (lo hi c : char16) : bool := (lo <=? c)%N && (c <=? hi)%N.
Arguments in_range (lo hi c)%_N.

(** [/^([01]?[0-9]|2[0-3]):[0-5][0-9]$/.test(s)].  With four characters
    before the end the hour is one digit, whichever; with five it is a 0 or
    1 and a digit, or a 2 and a digit up to 3. *)
Definition timeRegex_test (s : jsstring) : bool :=
  match s with
  | [h; colon; m1; m2] =>
      in_range 48 57 h
      && (colon =? 58)%N && in_range 48 53 m1 && in_range 48 57 m2
  | [h1; h2; colon; m1; m2] =>
      ((in_range 48 49 h1 && in_range 48 57 h2)
       || ((h1 =? 50)%N && in_range 48 51 h2))
      && (colon =? 58)%N && in_range 48 53 m1 && in_range 48 57 m2
  | _ => false
  end.

(** [validateForm]: the errors it sets and its answer. *)
Definition validateForm (formData : EventEditFormData) : FormErrors * bool :=
  let newErrors :=
    {| title_error :=
         match trim (title formData) with
         | [] => Some (lit "Title is required")
         | _ => None
         end;
       date_error :=
         match date formData with
         | [] => Some (lit "Date is required")
         | _ =>
             (* Validate date format *)
             if negb (SyllabusProcessor.dateRegex_test (date formData))
             then Some (lit "Invalid date format")
             else None
         end;
       time_error :=
         match time formData with
         | [] => None
         | _ =>
             (* Validate time format (HH:MM) *)
             if negb (timeRegex_test (time formData))
             then Some (lit "Invalid time format (use HH:MM)")
             else None
         end |} in
  (newErrors,
   match title_error newErrors, date_error newErrors, time_error newErrors with
   | None, None, None => true
   | _, _, _ => false
   end).

(** [v || ''] for an optional string. *)
Definition or_blank (v : option jsstring) : jsstring :=
  match v with
  | Some (c :: s) => c :: s
  | _ => []
  end.

(** The form as the effect fills it from the event being edited. *)
Definition form_of_event {number} (event : SyllabusProcessor.SyllabusEvent number)
  : EventEditFormData :=
  {| title := SyllabusProcessor.title event;
     description := SyllabusProcessor.description event;
     date := SyllabusProcessor.date event;
     time := or_blank (SyllabusProcessor.time event);
     type := SyllabusProcessor.type event;
     priority := SyllabusProcessor.priority event;
     location := Some (or_blank (SyllabusProcessor.location event)) |}.

End EventEditor.

Module Home.
Import JS Json.

Section Events.
Variable number : Type.
Abbreviation Event := (SyllabusProcessor.SyllabusEvent number).

(** [a === b] for two optional strings ([undefined] equals itself). *)
Definition same_id (a b : option jsstring) : bool :=
  match a, b with
  | None, None => true
  | Some x, Some y => jsstring_eqb x y
  | _, _ => false
  end.

(** [{ ...event, ...eventData }] *)
Definition merge (event : Event) (eventData : EventEditor.EventEditFormData)
  : Event :=
  {| SyllabusProcessor.id := SyllabusProcessor.id event;
     SyllabusProcessor.title := EventEditor.title eventData;
     SyllabusProcessor.description := EventEditor.description eventData;
     SyllabusProcessor.date := EventEditor.date eventData;
     SyllabusProcessor.time := Some (EventEditor.time eventData);
     SyllabusProcessor.type := EventEditor.type eventData;
     SyllabusProcessor.priority := EventEditor.priority eventData;
     SyllabusProcessor.course := SyllabusProcessor.course event;
     SyllabusProcessor.location :=
       match EventEditor.location eventData with
       | Some l => Some l
       | None => SyllabusProcessor.location event
       end;
     SyllabusProcessor.duration := SyllabusProcessor.duration event |}.

(** [{ id: ..., ...eventData }] *)
Definition created (newId : jsstring) (eventData : EventEditor.EventEditFormData)
  : Event :=
  {| SyllabusProcessor.id := Some newId;
     SyllabusProcessor.title := EventEditor.title eventData;
     SyllabusProcessor.description := EventEditor.description eventData;
     SyllabusProcessor.date := EventEditor.date eventData;
     SyllabusProcessor.time := Some (EventEditor.time eventData);
     SyllabusProcessor.type := EventEditor.type eventData;
     SyllabusProcessor.priority := EventEditor.priority eventData;
     SyllabusProcessor.course := None;
     SyllabusProcessor.location := EventEditor.location eventData;
     SyllabusProcessor.duration := None |}.

(** The list [handleEventSave] stores with [setEvents]; [newId] is the id
    text it would build from the clock and the random source. *)
Definition handleEventSave (events : list Event) (editingEvent : option Event)
  (newId : jsstring) (eventData : EventEditor.EventEditFormData) : list Event :=
  match editingEvent with
  | Some editing =>
      (* Update existing event *)
      List.map (fun event =>
                  if same_id (SyllabusProcessor.id event) (SyllabusProcessor.id editing)
                  then merge event eventData
                  else event)
               events
  | None =>
      (* Create new event *)
      events ++ [created newId eventData]
  end.


End Events.

End Home.

(* ================================================================= *)
(** ** The endpoint ([src/app/api/process-syllabus/route.ts]) *)

Module Route.
Import JS Json PDFProcessor SyllabusProcessor.

(** An uploaded file: its declared type and its bytes; its size is the
    number of bytes. *)
Record File := {
  file_type : jsstring;
  file_bytes : Buffer
}.

(** [formData.get('file')]: [null], a text field, or a file. *)
Inductive form_entry :=
| NoEntry
| TextEntry (s : jsstring)
| FileEntry (file : File).

(** The body and status given to [NextResponse.json]. *)
Inductive body (number : Type) :=
| Failure (error : jsstring)
| Success (message : jsstring) (data : ProcessedSyllabus number).
Arguments Failure {number} error.
Arguments Success {number} message data.

Record Response (number : Type) := {
  status : N;
  response_body : body number
}.

Definition maxSize : N := (10 * 1024 * 1024)%N.

(** A count printed in a template literal. *)
Definition decimal (n : nat) : jsstring :=
  lit (NilZero.string_of_uint (Nat.to_uint n)).

Section WithHost.
Variable H : Host.
Variable pdfParse : Buffer -> completion PDFParseResult.
(** [process.env.OPENAI_API_KEY] *)
Variable OPENAI_API_KEY : option jsstring.

Definition fail (code : N) (error : jsstring) : Response (number H) :=
  {| status := code; response_body := Failure error |}.

(** [POST]; [formData] is the outcome of [request.formData()]. *)
Definition POST (formData : completion form_entry) : world -> Response (number H) * world :=
  fun w =>
    match formData with
    | Throw _ =>
        (fail 500%N (lit "An unexpected error occurred while processing the syllabus"), w)
    | Return NoEntry | Return (TextEntry []) =>
        (fail 400%N (lit "No file uploaded"), w)
    | Return (TextEntry (_ :: _)) =>
        (fail 400%N (lit "Only PDF files are supported"), w)
    | Return (FileEntry file) =>
        (* Validate file type *)
        if negb (jsstring_eqb (file_type file) (lit "application/pdf"))
        then (fail 400%N (lit "Only PDF files are supported"), w)
        (* Validate file size (10MB limit) *)
        else if (maxSize <? N.of_nat (List.length (file_bytes file)))%N
        then (fail 400%N (lit "File size must be less than 10MB"), w)
        else
          (* Extract text from PDF *)
          match processForAI pdfParse (file_bytes file) with
          | Throw pdfError =>
              (fail 400%N (message_or (lit "Failed to process PDF") pdfError), w)
          | Return extractedText =>
              (* Check if we have OpenAI API key *)
              match OPENAI_API_KEY with
              | None | Some [] =>
                  (fail 500%N (lit "OpenAI API key not configured. Please set OPENAI_API_KEY environment variable."), w)
              | Some (_ :: _) =>
                  (* Process with OpenAI *)
                  match extractEventsWithFallback H extractedText w with
                  | (Throw aiError, w') =>
                      (fail 500%N (message_or (lit "Failed to process syllabus with AI") aiError), w')
                  | (Return processedSyllabus, w') =>
                      ({| status := 200%N;
                          response_body :=
                            Success
                              (lit "Successfully extracted "
                               ++ decimal (List.length (events processedSyllabus))
                               ++ lit " events from syllabus")
                              processedSyllabus |}, w')
                  end
              end
          end
    end.

End WithHost.

End Route.

(** ** The editor's form check *)

Module EventEditorFacts.
Import JS JSFacts Json Validator ValidatorMore EventEditor.

(** A clock time: an hour below 24, written with one or two digits, a
    colon, and a minute below 60 written with two digits. *)
Definition clock_time (s : jsstring) : Prop :=
  exists a b c d : N,
    (a <= 9 /\ b <= 9 /\ c <= 9 /\ d <= 9
     /\ 10 * a + b < 24 /\ 10 * c + d < 60)%N
    /\ (s = [48 + a; 48 + b; 58; 48 + c; 48 + d]%N
        \/ (a = 0%N /\ s = [48 + b; 58; 48 + c; 48 + d]%N)).

Lemma in_range_iff lo hi c : in_range lo hi c = true <-> (lo <= c <= hi)%N.
Proof. unfold in_range. rewrite andb_true_iff, !N.leb_le. tauto. Qed.

Lemma timeRegex_test_clock_time s : timeRegex_test s = true <-> clock_time s.
Proof.
  split.
  - destruct s as [|h1 [|h2 [|x3 [|x4 [|x5 [|? ?]]]]]]; try discriminate;
      cbn [timeRegex_test].
    + rewrite !andb_true_iff, !in_range_iff, N.eqb_eq.
      intros [[[Hh ->] Hm1] Hm2].
      exists 0%N, (h1 - 48)%N, (x3 - 48)%N, (x4 - 48)%N.
      split; [lia|]. right. split; [reflexivity|].
      repeat f_equal; lia.
    + rewrite !andb_true_iff, orb_true_iff, !andb_true_iff, !in_range_iff,
        !N.eqb_eq.
      intros [[[Hh ->] Hm1] Hm2].
      exists (h1 - 48)%N, (h2 - 48)%N, (x4 - 48)%N, (x5 - 48)%N.
      split; [lia|]. left. repeat f_equal; lia.
  - intros (a & b & c & d & Hb & [-> | [-> ->]]); cbn [timeRegex_test].
    + rewrite !andb_true_iff, orb_true_iff, !andb_true_iff, !in_range_iff,
        !N.eqb_eq. lia.
    + rewrite !andb_true_iff, !in_range_iff, N.eqb_eq. lia.
Qed.

(** X16. [validateForm] accepts a form exactly when its title is not blank,
    its date has the shape YYYY-MM-DD, and its time is empty or a clock
    time (hour 0 to 23 in one or two digits, minute 00 to 59); with a
    rejected form it sets at least one error. *)
Theorem validateForm_accepts_iff (formData : EventEditFormData) :
  (snd (validateForm formData) = true
   <-> trim (title formData) <> []
       /\ iso_date_shape (date formData)
       /\ (time formData = [] \/ clock_time (time formData)))
  /\ (snd (validateForm formData) = false
      <-> title_error (fst (validateForm formData)) <> None
          \/ date_error (fst (validateForm formData)) <> None
          \/ time_error (fst (validateForm formData)) <> None).
Proof.
  rewrite <- dateRegex_test_shape.
  assert (T : time formData = [] \/ clock_time (time formData)
              <-> time formData = [] \/ timeRegex_test (time formData) = true)
    by (now rewrite timeRegex_test_clock_time).
  rewrite T. clear T.
  unfold validateForm. cbn [fst snd title_error date_error time_error].
  destruct (trim (title formData)) as [|c t];
    destruct (date formData) as [|d ds] eqn:Ed;
    try destruct (SyllabusProcessor.dateRegex_test (d :: ds));
    destruct (time formData) as [|x xs];
    try destruct (timeRegex_test (x :: xs));
    cbn [negb]; (split; split); try tauto; try discriminate;
    try (intros (A & B & C); try congruence; try discriminate;
         destruct C; congruence);
    try (intros _; repeat split; auto; discriminate);
    try (intros _; auto; left; discriminate);
    try (intros _; right; left; discriminate);
    try (intros _; right; right; discriminate);
    try (intros [A | [A | A]]; congruence).
Qed.

(** X17. An event of the validator that has no time, or a clock time,
    passes the editor's check when it is loaded into the form. *)
Theorem validated_event_passes_editor
  (H : Host) (ev : SyllabusProcessor.SyllabusEvent (number H)) :
  well_formed H ev ->
  (SyllabusProcessor.time ev = None
   \/ SyllabusProcessor.time ev = Some []
   \/ exists t, SyllabusProcessor.time ev = Some t /\ clock_time t) ->
  validateForm (form_of_event ev)
  = ({| title_error := None; date_error := None; time_error := None |}, true).
Proof.
  intros (_ & Ht & Htt & _ & Hd & _) Htime.
  unfold validateForm, form_of_event.
  cbn [title date time]. rewrite Htt.
  destruct (SyllabusProcessor.title ev) as [|c t] eqn:Et; [congruence|].
  pose proof Hd as Hd'. apply dateRegex_test_shape in Hd'.
  destruct (SyllabusProcessor.date ev) as [|d ds] eqn:Ed; [discriminate|].
  rewrite Hd'. cbn [negb].
  destruct Htime as [-> | [-> | (t' & -> & Hc)]]; try reflexivity.
  apply timeRegex_test_clock_time in Hc.
  destruct t' as [|x xs]; [reflexivity|].
  cbn [or_blank]. now rewrite Hc.
Qed.

Definition midterm : json Z :=
  candidate [("title", str "Midterm"); ("date", str "2024-10-20");
             ("time", str "9:30")]%string.

Lemma validated_event_passes_editor_witness :
  snd (validateForm (form_of_event (cleaned H0 0 midterm))) = true.
Proof.
  rewrite (@validated_event_passes_editor H0 (cleaned H0 0 midterm)
             (cleaned_well_formed H0 0 midterm eq_refl)); [reflexivity|].
  right. right. exists (lit "9:30"). split; [reflexivity|].
  exists 0%N, 9%N, 3%N, 0%N. split; [lia|]. right. split; reflexivity.
Defined.

End EventEditorFacts.

(** ** The event list of the page *)

Module HomeFacts.
Import JS JSFacts Json Home.

Section Events.
Variable number : Type.
Abbreviation Event := (SyllabusProcessor.SyllabusEvent number).
Abbreviation id_of := (@SyllabusProcessor.id number).

Lemma same_id_eq a b : same_id a b = true <-> a = b.
Proof.
  destruct a as [x|], b as [y|]; cbn; try (split; congruence).
  rewrite jsstring_eqb_eq. split; congruence.
Qed.


(** X19. Saving an edit keeps the number, the order and the ids of the
    events (so distinct ids stay distinct) and touches only the events
    that carry the edited id; saving a new event appends it, and with a
    fresh id distinct ids stay distinct. *)
Theorem handleEventSave_keeps_ids
  (events : list Event) (editing : Event) (newId : jsstring)
  (eventData : EventEditor.EventEditFormData) :
  let edited := handleEventSave events (Some editing) newId eventData in
  let added := handleEventSave events None newId eventData in
  List.map id_of edited = List.map id_of events
  /\ List.length edited = List.length events
  /\ (forall i event,
        nth_error events i = Some event ->
        nth_error edited i
        = Some (if same_id (id_of event) (id_of editing)
                then merge event eventData else event))
  /\ (~ In (id_of editing) (List.map id_of events) -> edited = events)
  /\ added = events ++ [created number newId eventData]
  /\ (NoDup (List.map id_of events) -> NoDup (List.map id_of edited))
  /\ (NoDup (List.map id_of events) ->
      ~ In (Some newId) (List.map id_of events) ->
      NoDup (List.map id_of added)).
Proof.
  cbv zeta. unfold handleEventSave.
  assert (Hids : List.map id_of
                   (List.map (fun event =>
                      if same_id (id_of event) (id_of editing)
                      then merge event eventData else event) events)
                 = List.map id_of events).
  { rewrite map_map. apply map_ext. intros e.
    now destruct (same_id (id_of e) (id_of editing)). }
  split; [exact Hids|]. split; [apply length_map|].
  split; [|split; [|split; [reflexivity|split]]].
  - intros i event Hi. now rewrite nth_error_map, Hi.
  - clear Hids. induction events as [|e l IH]; [reflexivity|].
    cbn [List.map In].
    intros Hn. destruct (same_id (id_of e) (id_of editing)) eqn:E.
    + apply same_id_eq in E. exfalso. apply Hn. now left.
    + f_equal. apply IH. tauto.
  - now rewrite Hids.
  - intros Hnd Hfresh. rewrite map_app. cbn [List.map].
    apply NoDup_app; [exact Hnd | repeat constructor; auto|].
    intros x Hx [<- | []]. exact (Hfresh Hx).
Qed.

End Events.

End HomeFacts.

(** ** The endpoint *)

Module RouteFacts.
Import JS JSFacts Json PDFProcessor SyllabusProcessor Validator ValidatorMore.
Import ScannedCheck Fallback FallbackMore PDFProcessorMore Route.

Definition client_errors : list jsstring :=
  [lit "No file uploaded";
   lit "Only PDF files are supported";
   lit "File size must be less than 10MB";
   lit "Invalid PDF file format";
   lit "Scanned PDFs are not currently supported. Please provide a text-based PDF.";
   lit "PDF appears to contain very little text content"].

Definition server_errors : list jsstring :=
  [lit "OpenAI API key not configured. Please set OPENAI_API_KEY environment variable.";
   lit "AI processing failed. Please try again or check your syllabus format.";
   lit "An unexpected error occurred while processing the syllabus"].

(** The upload passes the checks made before the model is called. *)
Definition accepted (pdfParse : Buffer -> completion PDFParseResult)
  (key : option jsstring) (formData : completion form_entry)
  (extractedText : jsstring) : Prop :=
  exists file,
    formData = Return (FileEntry file)
    /\ file_type file = lit "application/pdf"
    /\ (N.of_nat (List.length (file_bytes file)) <= maxSize)%N
    /\ processForAI pdfParse (file_bytes file) = Return extractedText
    /\ exists c k, key = Some (c :: k).

Ltac in_list :=
  cbn [In client_errors server_errors];
  first [ left; reflexivity
        | right; left; reflexivity
        | right; right; left; reflexivity
        | right; right; right; left; reflexivity
        | right; right; right; right; left; reflexivity
        | right; right; right; right; right; left; reflexivity ].

Ltac answer :=
  first [ left; split; [reflexivity | in_list]
        | right; split; [reflexivity | split; [in_list | discriminate]] ].

Section WithHost.
Variable H : Host.
Variable pdfParse : Buffer -> completion PDFParseResult.
Variable key : option jsstring.

(** [POST], case by case. *)
Lemma POST_cases formData w :
  (requests (snd (POST H pdfParse key formData w)) = requests w
   /\ (forall text, ~ accepted pdfParse key formData text)
   /\ exists error,
        response_body (fst (POST H pdfParse key formData w)) = Failure error
        /\ (status (fst (POST H pdfParse key formData w)) = 400%N
            /\ In error client_errors
            \/ status (fst (POST H pdfParse key formData w)) = 500%N
               /\ In error server_errors
               /\ error <> lit "AI processing failed. Please try again or check your syllabus format."))
  \/ (exists text,
        accepted pdfParse key formData text
        /\ snd (POST H pdfParse key formData w)
           = snd (extractEventsWithFallback H text w)
        /\ match extractEventsWithFallback H text w with
           | (Return syllabus, _) =>
               fst (POST H pdfParse key formData w)
               = {| status := 200;
                    response_body :=
                      Success (lit "Successfully extracted "
                               ++ decimal (List.length (events syllabus))
                               ++ lit " events from syllabus") syllabus |}
           | (Throw _, _) =>
               fst (POST H pdfParse key formData w)
               = fail H 500 (lit "AI processing failed. Please try again or check your syllabus format.")
           end).
Proof.
  unfold POST.
  destruct formData as [[|[|c s]|file]|e].
  1-3, 5: left; (split; [reflexivity|]);
    (split; [intros text (file & K & _); discriminate|]);
    eexists; (split; [reflexivity|]); answer.
  destruct (jsstring_eqb_spec (file_type file) (lit "application/pdf")) as [Et|Et];
    cbn [negb].
  2: { left. split; [reflexivity|]. split.
       - intros text (f & K & Ht & _). inversion K; subst. contradiction.
       - eexists. split; [reflexivity|]. answer. }
  destruct (maxSize <? N.of_nat (List.length (file_bytes file)))%N eqn:Es.
  { left. split; [reflexivity|]. split.
    - intros text (f & K & _ & Hs & _). inversion K; subst.
      apply N.ltb_lt in Es. lia.
    - eexists. split; [reflexivity|]. answer. }
  apply N.ltb_ge in Es.
  destruct (processForAI_cases pdfParse (file_bytes file))
    as [[_ E] | [(_ & _ & E) | [(r & _ & _ & _ & _ & E) | (r & _ & _ & _ & _ & E)]]];
    rewrite E.
  1-3: left; (split; [reflexivity|]);
    (split; [intros text (f & K & _ & _ & Hp & _); inversion K; subst;
             rewrite E in Hp; discriminate|]);
    eexists; (split; [reflexivity|]); answer.
  destruct key as [[|c k]|] eqn:Ek.
  1, 3: left; (split; [reflexivity|]);
    (split; [intros text (f & _ & _ & _ & _ & c' & k' & K); discriminate|]);
    eexists; (split; [reflexivity|]); answer.
  right. exists (cleanText (text r)). split.
  - exists file. repeat split; auto. now exists c, k.
  - destruct (extractEventsWithFallback H (cleanText (text r)) w)
      as [[syllabus|aiError] w'] eqn:Ex; cbn [fst snd]; split; try reflexivity.
    assert (K : aiError = ExtractionFailed)
      by (apply (@fallback_throws H (cleanText (text r)) w); now rewrite Ex).
    now subst.
Qed.

End WithHost.

(** X20. The endpoint calls the model only for an accepted upload: a file
    declared as PDF, of at most 10 MB, whose text [processForAI] returns,
    with an API key configured.  In every other case no request is sent;
    for an accepted upload the requests are those of the extraction with
    fallback on the cleaned text, the primary request first. *)
Theorem POST_calls_model_only_when_accepted
  (H : Host) (pdfParse : Buffer -> completion PDFParseResult)
  (key : option jsstring) (formData : completion form_entry) (w : world) :
  let after := snd (POST H pdfParse key formData w) in
  (requests after <> requests w ->
   exists text, accepted pdfParse key formData text)
  /\ (forall text,
        accepted pdfParse key formData text ->
        50 <= List.length text
        /\ after = snd (extractEventsWithFallback H text w)
        /\ exists more, requests after = requests w ++ primary_request text :: more).
Proof.
  cbv zeta.
  destruct (POST_cases H pdfParse key formData w)
    as [(Hr & Hn & _) | (text & Ha & Hs & _)].
  - split; [intros K; contradiction|].
    intros text Ha. now destruct (Hn text).
  - split; [intros _; now exists text|].
    intros text' Ha'.
    assert (text' = text).
    { destruct Ha as (f & K & _ & _ & Hp & _), Ha' as (f' & K' & _ & _ & Hp' & _).
      rewrite K in K'. inversion K'; subst. rewrite Hp in Hp'. now inversion Hp'. }
    subst text'. split; [|split; [exact Hs|]].
    + destruct Ha as (f & _ & _ & _ & Hp & _).
      destruct (processForAI_cases pdfParse (file_bytes f))
        as [[_ E] | [(_ & _ & E) | [(r & _ & _ & _ & _ & E) | (r & _ & _ & _ & Hl & E)]]];
        rewrite E in Hp; try discriminate.
      now inversion Hp; subst.
    + rewrite Hs. rewrite extractEventsWithFallback_run.
      pose proof (extractEvents_requests H text w) as R.
      destruct (extractEvents H text w) as [[r|e] w1]; cbn [snd] in *.
      * exists []. exact R.
      * rewrite after_fallback_requests, fallbackAttempt_requests, R, <- app_assoc.
        now exists [fallback_request text].
Qed.

Definition sample_upload : completion form_entry :=
  Return (FileEntry {| file_type := lit "application/pdf";
                       file_bytes := pdf_signature |}).

Definition sample_pdfParse : Buffer -> completion PDFParseResult :=
  fun _ => Return {| text := sample_text; numpages := 1 |}.

Lemma POST_calls_model_only_when_accepted_witness :
  List.map model
    (requests (snd (POST H0 sample_pdfParse (Some (lit "sk-test")) sample_upload w0)))
  = [lit "gpt-4"; lit "gpt-3.5-turbo"]
  /\ requests (snd (POST H0 sample_pdfParse None sample_upload w0)) = [].
Proof.
  split; [vm_compute; reflexivity|].
  destruct (requests (snd (POST H0 sample_pdfParse None sample_upload w0)))
    as [|q l] eqn:E; [reflexivity|].
  exfalso.
  destruct (proj1 (POST_calls_model_only_when_accepted H0 sample_pdfParse None
                     sample_upload w0))
    as (text & f & _ & _ & _ & _ & c & k & K); [|discriminate K].
  cbv zeta. rewrite E. discriminate.
Defined.

(** X21. Every answer of the endpoint has status 200, 400 or 500.  A 400
    carries one of six fixed messages (no file, not a PDF, too large, bad
    signature, scanned, too little text); a 500 carries one of three (key
    not configured, AI processing failed, unexpected error).  The
    parse-failure text of [extractText] and the two default messages of
    the handlers are never sent. *)
Theorem POST_answers
  (H : Host) (pdfParse : Buffer -> completion PDFParseResult)
  (key : option jsstring) (formData : completion form_entry) (w : world) :
  let response := fst (POST H pdfParse key formData w) in
  (status response = 200%N
   /\ exists message data, response_body response = Success message data)
  \/ (status response = 400%N
      /\ exists error, response_body response = Failure error
                       /\ In error client_errors)
  \/ (status response = 500%N
      /\ exists error, response_body response = Failure error
                       /\ In error server_errors).
Proof.
  cbv zeta.
  destruct (POST_cases H pdfParse key formData w)
    as [(_ & _ & error & Hb & [[Hs Hin] | (Hs & Hin & _)])
       | (text & _ & _ & Hx)].
  - right. left. split; [exact Hs|]. now exists error.
  - right. right. split; [exact Hs|]. now exists error.
  - destruct (extractEventsWithFallback H text w) as [[syllabus|e] w'];
      rewrite Hx.
    + left. split; [reflexivity|]. cbn. eauto.
    + right. right. split; [reflexivity|]. eexists. split; [reflexivity|].
      in_list.
Qed.

(** X22. A 200 answer is given only for an accepted upload; its data is
    the syllabus the extraction returned for the cleaned text, its message
    counts the events of that syllabus, and every one of these events is
    well-formed. *)
Theorem POST_success
  (H : Host) (pdfParse : Buffer -> completion PDFParseResult)
  (key : option jsstring) (formData : completion form_entry) (w : world) :
  status (fst (POST H pdfParse key formData w)) = 200%N ->
  exists text data w',
    accepted pdfParse key formData text
    /\ extractEventsWithFallback H text w = (Return data, w')
    /\ POST H pdfParse key formData w
       = ({| status := 200;
             response_body :=
               Success (lit "Successfully extracted "
                        ++ decimal (List.length (events data))
                        ++ lit " events from syllabus") data |}, w')
    /\ Forall (well_formed H) (events data).
Proof.
  intros Hs.
  destruct (POST_cases H pdfParse key formData w)
    as [(_ & _ & error & _ & [[Hs' _] | (Hs' & _)])
       | (text & Ha & Hw & Hx)];
    try (rewrite Hs in Hs'; discriminate).
  destruct (extractEventsWithFallback H text w) as [[data|e] w'] eqn:Ex.
  - exists text, data, w'. split; [exact Ha|]. split; [exact Ex|].
    split; [|now apply pipeline_returns_well_formed in Ex].
    cbn [snd] in Hw. rewrite <- Hx, <- Hw. now destruct (POST _ _ _ _ _).
  - rewrite Hx in Hs. discriminate.
Qed.

Lemma POST_success_witness :
  fst (POST (sample_host always_empty_object) sample_pdfParse
         (Some (lit "sk-test")) sample_upload w0)
  = {| status := 200;
       response_body :=
         Success (lit "Successfully extracted 0 events from syllabus")
           {| events := []; courseName := None; instructor := None;
              semester := None; year := None |} |}.
Proof.
  destruct (@POST_success (sample_host always_empty_object) sample_pdfParse
              (Some (lit "sk-test")) sample_upload w0 eq_refl)
    as (text & data & w' & _ & _ & E & _).
  vm_compute. reflexivity.
Defined.

(** X23. The PDF checks come before the credential check: without an API
    key the endpoint answers 500 (not configured) exactly for an upload
    that passes every earlier check, and answers 400 for the others; it
    sends no request. *)
Theorem POST_without_key
  (H : Host) (pdfParse : Buffer -> completion PDFParseResult)
  (formData : completion form_entry) (w : world) (file : File) :
  formData = Return (FileEntry file) ->
  let response := fst (POST H pdfParse None formData w) in
  snd (POST H pdfParse None formData w) = w
  /\ (status response = 500%N
      <-> file_type file = lit "application/pdf"
          /\ (N.of_nat (List.length (file_bytes file)) <= maxSize)%N
          /\ exists text, processForAI pdfParse (file_bytes file) = Return text)
  /\ (status response = 400%N \/ status response = 500%N).
Proof.
  intros ->. cbv zeta. unfold POST.
  destruct (jsstring_eqb_spec (file_type file) (lit "application/pdf")) as [Et|Et];
    cbn [negb].
  2: { split; [reflexivity|]. split; [|now left].
       split; [discriminate | tauto]. }
  destruct (maxSize <? N.of_nat (List.length (file_bytes file)))%N eqn:Es.
  { apply N.ltb_lt in Es. split; [reflexivity|]. split; [|now left].
    split; [discriminate | lia]. }
  apply N.ltb_ge in Es.
  destruct (processForAI pdfParse (file_bytes file)) as [text|e].
  - split; [reflexivity|]. split; [|now right].
    split; [eauto | reflexivity].
  - split; [reflexivity|]. split; [|now left].
    split; [discriminate|]. intros (_ & _ & text & K). discriminate.
Qed.

Lemma POST_without_key_witness :
  fst (POST H0 sample_pdfParse None sample_upload w0)
  = fail H0 500 (lit "OpenAI API key not configured. Please set OPENAI_API_KEY environment variable.").
Proof.
  pose proof (@POST_without_key H0 sample_pdfParse sample_upload w0 _ eq_refl) as K.
  vm_compute. reflexivity.
Defined.

End RouteFacts.

(* ================================================================= *)
(** ** [CalendarView]: events grouped by date *)

Module CalendarView.
Import JS Json.

Section Grouping.
Variable number : Type.
Abbreviation Event := (SyllabusProcessor.SyllabusEvent number).

(** The names [Object.prototype] defines ([constructor], [toString],
    [__proto__], ...): on the accumulator [{}] they read as a truthy value
    that is no array. *)
Variable inherited : jsstring -> bool.

(** The accumulator: its own properties, in the order they were added. *)
Definition groups := list (jsstring * list Event).

Fixpoint own (acc : groups) (k : jsstring) : option (list Event) :=
  match acc with
  | [] => None
  | (k', l) :: rest => if jsstring_eqb k' k then Some l else own rest k
  end.

(** [acc[k].push(event)] on an own property. *)
Fixpoint push (acc : groups) (k : jsstring) (event : Event) : groups :=
  match acc with
  | [] => []
  | (k', l) :: rest =>
      if jsstring_eqb k' k then (k', l ++ [event]) :: rest
      else (k', l) :: push rest k event
  end.

(** The [TypeError] of calling [push] on a value that has none (the text
    is V8's). *)
Definition NotAFunction : thrown :=
  ErrorObject (lit "acc[dateStr].push is not a function").

(** The callback of [events.reduce]. *)
Definition group_step (acc : groups) (event : Event) : completion groups :=
  let dateStr := SyllabusProcessor.date event in
  match own acc dateStr with
  | Some _ => Return (push acc dateStr event)
  | None =>
      if inherited dateStr
      then Throw NotAFunction              (* the inherited value has no push *)
      else Return (acc ++ [(dateStr, [event])])  (* acc[dateStr] = []; push *)
  end.

Fixpoint reduce (events : list Event) (acc : groups) : completion groups :=
  match events with
  | [] => Return acc
  | event :: rest =>
      match group_step acc event with
      | Return acc' => reduce rest acc'
      | Throw e => Throw e
      end
  end.

Definition eventsByDate (events : list Event) : completion groups :=
  reduce events [].

End Grouping.

End CalendarView.

Module CalendarViewFacts.
Import JS JSFacts Json CalendarView.

Section Grouping.
Variable number : Type.
Variable inherited : jsstring -> bool.
Abbreviation Event := (SyllabusProcessor.SyllabusEvent number).
Abbreviation date_of := (@SyllabusProcessor.date number).

Definition on_date (d : jsstring) (events : list Event) : list Event :=
  filter (fun event => jsstring_eqb (date_of event) d) events.

Lemma own_push (acc : groups number) k (event : Event) d :
  own (push acc k event) d
  = match own acc d with
    | Some l => Some (if jsstring_eqb k d then l ++ [event] else l)
    | None => None
    end.
Proof.
  induction acc as [|[k' l] rest IH]; [reflexivity|]. cbn [push own].
  destruct (jsstring_eqb_spec k' k) as [->|Hk]; cbn [own].
  - destruct (jsstring_eqb_spec k d) as [->|Hd]; [reflexivity|].
    destruct (own rest d); reflexivity.
  - destruct (jsstring_eqb_spec k' d) as [->|Hd]; [|exact IH].
    destruct (jsstring_eqb_spec k d) as [->|_]; [congruence | reflexivity].
Qed.

Lemma own_app (acc : groups number) k (l : list Event) d :
  own (acc ++ [(k, l)]) d
  = match own acc d with
    | Some l' => Some l'
    | None => if jsstring_eqb k d then Some l else None
    end.
Proof.
  induction acc as [|[k' l'] rest IH]; [reflexivity|]. cbn [app own].
  now destruct (jsstring_eqb k' d).
Qed.

(** What the accumulator holds: for every date the events seen so far
    with that date, and nothing for a date not seen. *)
Definition holds (acc : groups number) (seen : list Event) : Prop :=
  forall d,
    own acc d = match on_date d seen with
                | [] => None
                | l => Some l
                end.

Lemma on_date_app d a b : on_date d (a ++ b) = on_date d a ++ on_date d b.
Proof. apply filter_app. Qed.

Lemma on_date_one d (event : Event) :
  on_date d [event] = if jsstring_eqb (date_of event) d then [event] else [].
Proof. reflexivity. Qed.

Lemma group_step_holds (acc : groups number) seen (event : Event) :
  holds acc seen ->
  inherited (date_of event) = false ->
  exists acc', group_step inherited acc event = Return acc'
               /\ holds acc' (seen ++ [event]).
Proof.
  intros Hh Hi. unfold group_step.
  pose proof (Hh (date_of event)) as Hd0.
  destruct (own acc (date_of event)) as [l|] eqn:Eo.
  - eexists. split; [reflexivity|]. intros d.
    rewrite own_push, on_date_app, on_date_one, (Hh d).
    destruct (jsstring_eqb_spec (date_of event) d) as [<-|Hd].
    + destruct (on_date (date_of event) seen) as [|x xs]; [discriminate|].
      reflexivity.
    + rewrite app_nil_r. now destruct (on_date d seen).
  - rewrite Hi. eexists. split; [reflexivity|]. intros d.
    rewrite own_app, on_date_app, on_date_one, (Hh d).
    destruct (jsstring_eqb_spec (date_of event) d) as [<-|Hd].
    + destruct (on_date (date_of event) seen) as [|x xs]; [reflexivity|].
      discriminate.
    + rewrite app_nil_r. now destruct (on_date d seen).
Qed.

Lemma reduce_holds (events : list Event) (acc : groups number) seen :
  holds acc seen ->
  (forall event, In event events -> inherited (date_of event) = false) ->
  exists acc', reduce inherited events acc = Return acc'
               /\ holds acc' (seen ++ events).
Proof.
  revert acc seen; induction events as [|event rest IH]; intros acc seen Hh Hi.
  - exists acc. rewrite app_nil_r. now split.
  - cbn [reduce].
    destruct (group_step_holds event Hh (Hi event (or_introl eq_refl)))
      as (acc1 & -> & H1).
    destruct (IH acc1 (seen ++ [event]) H1) as (acc' & E & H').
    + intros e He. apply Hi. now right.
    + exists acc'. split; [exact E|]. now rewrite <- app_assoc in H'.
Qed.

(** X24. When no event's date is a name that objects inherit, grouping the
    events by date succeeds, and under each date the accumulator holds
    exactly the events of that date, in their order in the list; a date
    that no event has is not a key.  When the date of the first event is an
    inherited name, the grouping throws. *)
Theorem eventsByDate_groups (events : list Event) :
  ((forall event, In event events -> inherited (date_of event) = false) ->
   exists acc,
     eventsByDate inherited events = Return acc
     /\ forall d, own acc d = match on_date d events with
                              | [] => None
                              | l => Some l
                              end)
  /\ (forall event rest,
        events = event :: rest ->
        inherited (date_of event) = true ->
        eventsByDate inherited events = Throw NotAFunction).
Proof.
  split.
  - intros Hi.
    destruct (@reduce_holds events [] [] (fun d => eq_refl) Hi) as (acc & E & Hh).
    now exists acc.
  - intros event rest -> Hi. unfold eventsByDate. cbn [reduce own].
    unfold group_step. cbn [own]. now rewrite Hi.
Qed.

End Grouping.

Definition quiz_on (d : string) : SyllabusProcessor.SyllabusEvent Z :=
  {| SyllabusProcessor.id := None;
     SyllabusProcessor.title := lit "Quiz";
     SyllabusProcessor.description := [];
     SyllabusProcessor.date := lit d;
     SyllabusProcessor.time := None;
     SyllabusProcessor.type := lit "quiz";
     SyllabusProcessor.priority := lit "medium";
     SyllabusProcessor.course := None;
     SyllabusProcessor.location := None;
     SyllabusProcessor.duration := None |}.

Lemma eventsByDate_groups_witness :
  exists acc,
    eventsByDate (fun k => jsstring_eqb k (lit "constructor"))
      [quiz_on "2024-09-15"; quiz_on "2024-09-16"; quiz_on "2024-09-15"]
    = Return acc
    /\ own acc (lit "2024-09-15") = Some [quiz_on "2024-09-15"; quiz_on "2024-09-15"].
Proof.
  destruct (proj1 (eventsByDate_groups
                     (fun k => jsstring_eqb k (lit "constructor"))
                     [quiz_on "2024-09-15"; quiz_on "2024-09-16";
                      quiz_on "2024-09-15"]))
    as (acc & E & Hh).
  - intros event [<-|[<-|[<-|[]]]]; reflexivity.
  - exists acc. split; [exact E|]. now rewrite (Hh (lit "2024-09-15")).
Defined.

End CalendarViewFacts.
